(** * FESTIM: the solve orchestration of [generic_simulation.run]

    A shallow embedding of [FESTIM/generic_simulation.py].  The function
    [run] is a long script that calls solvers, exporters and builders of
    the FESTIM and FEniCS libraries; here it is a computation in a small
    monad that records every such call in a trace and may raise a Python
    exception.  The values the external calls produce are supplied by a
    record of collaborators, so that every statement below holds for all
    behaviours of the libraries.

    Numbers ([t], [dt], [final_time]) are exact rationals. *)

From Stdlib Require Import QArith Qround Lqa.
From stdpp Require Import base option list gmap strings pretty.

Local Open Scope Q_scope.
Local Open Scope stdpp_scope.
Local Open Scope string_scope.
Local Open Scope list_scope.

(** ** Python values and exceptions *)

(** The values found in the [parameters] dictionary whose content [run]
    inspects itself. *)
Inductive pyval :=
  | PyNone
  | PyBool (b : bool)
  | PyInt (z : Z)
  | PyStr (s : string).

(** [v == "literal"] for a string literal: a value that is not a string is
    never equal to one. *)
Definition py_eq_str (v : pyval) (literal : string) : bool :=
  match v with
  | PyStr s => String.eqb s literal
  | _ => false
  end.

(** [str(v)] *)
Definition py_str (v : pyval) : string :=
  match v with
  | PyNone => "None"
  | PyBool true => "True"
  | PyBool false => "False"
  | PyInt z => pretty z
  | PyStr s => s
  end.

(** Exception classes.  [TypeError], [ValueError], [KeyError] and
    [IndexError] are the ones [run] names or triggers itself;
    [OtherError] stands for any class that is not one of these (and does
    not derive from [TypeError]). *)
Inductive exn :=
  | TypeError
  | ValueError (msg : string)
  | KeyError (key : string)
  | IndexError
  | OtherError (class_name : string).

(** ** The [parameters] dictionary *)

(** [parameters["solving_parameters"]]: every entry may be absent. *)
Record solving_parameters_dict := {
  sp_type : option pyval;
  sp_final_time : option Q;
  sp_initial_stepsize : option Q;
  sp_traps_element_type : option string
}.

(** The part of [parameters] that [run] reads itself.  The entries that
    are only handed over to a collaborator ([mesh_parameters],
    [materials], [boundary_conditions], the temperature's [value] and
    [initial_condition]) never influence which calls [run] makes and are
    left out. *)
Record parameters_dict := {
  exports : gmap string pyval;
  solving_parameters : solving_parameters_dict;
  temperature_type : pyval;
  traps : list (gmap string pyval)
}.

(** [key in d.keys()] *)
Definition has_key (d : gmap string pyval) (key : string) : bool :=
  bool_decide (is_Some (d !! key)).

(** The condition of the comprehensions of lines 131-134:
    [if "type" in d.keys() if d["type"] == "extrinsic"]. *)
Definition is_extrinsic (d : gmap string pyval) : bool :=
  if has_key d "type" then
    match d !! "type" with
    | Some ty => py_eq_str ty "extrinsic"
    | None => false
    end
  else false.

(** ** Mutable objects *)

(** The FEniCS [Function] objects that [run] assigns to. *)
Inductive slot :=
  | slot_T
  | slot_T_n
  | slot_u
  | slot_u_n
  | slot_extrinsic_trap (j : nat)
  | slot_previous_solution_trap (j : nat).

(** A material property reads the temperature through its attribute [_T],
    which designates a [Function] object. *)
Record property := { prop_T : slot }.

Inductive property_name :=
  | name_D
  | name_H
  | name_thermal_cond
  | name_S.

(** The six results of [create_properties]; all but [D] may be [None]. *)
Record properties := {
  D : property;
  thermal_cond : option property;
  cp : option property;
  rho : option property;
  H : option property;
  S_ : option property
}.

(** A time-dependent expression of the registry [expressions]: its
    attribute [t] and, when it has one, the attribute [t] of its [_bci]. *)
Record expression := {
  expr_t : Q;
  bci_t : option Q
}.

(** A Dirichlet condition handed to a solver. *)
Inductive boundary_condition := DirichletBC (surface : nat).

Section Simulation.

(** The values of finite-element functions, the rows of the derived
    quantities table, the error metric and the mesh are opaque. *)
Context {field row metric mesh : Type}.

(** The local variables of [run] that the time loop reads or writes. *)
Record store := {
  st_t : Q;
  st_dt : Q;
  st_T : field;
  st_T_n : field;
  st_u : field;
  st_u_n : field;
  st_extrinsic_traps : list field;
  st_previous_solutions_traps : list field;
  st_expressions : list expression;
  st_properties : properties;
  st_append : bool;
  st_derived_quantities_global : list row
}.

Definition set_t (s : store) (v : Q) : store :=
  {| st_t := v; st_dt := st_dt s; st_T := st_T s; st_T_n := st_T_n s;
     st_u := st_u s; st_u_n := st_u_n s;
     st_extrinsic_traps := st_extrinsic_traps s;
     st_previous_solutions_traps := st_previous_solutions_traps s;
     st_expressions := st_expressions s; st_properties := st_properties s;
     st_append := st_append s;
     st_derived_quantities_global := st_derived_quantities_global s |}.

Definition set_dt (s : store) (v : Q) : store :=
  {| st_t := st_t s; st_dt := v; st_T := st_T s; st_T_n := st_T_n s;
     st_u := st_u s; st_u_n := st_u_n s;
     st_extrinsic_traps := st_extrinsic_traps s;
     st_previous_solutions_traps := st_previous_solutions_traps s;
     st_expressions := st_expressions s; st_properties := st_properties s;
     st_append := st_append s;
     st_derived_quantities_global := st_derived_quantities_global s |}.

Definition set_T (s : store) (v : field) : store :=
  {| st_t := st_t s; st_dt := st_dt s; st_T := v; st_T_n := st_T_n s;
     st_u := st_u s; st_u_n := st_u_n s;
     st_extrinsic_traps := st_extrinsic_traps s;
     st_previous_solutions_traps := st_previous_solutions_traps s;
     st_expressions := st_expressions s; st_properties := st_properties s;
     st_append := st_append s;
     st_derived_quantities_global := st_derived_quantities_global s |}.

Definition set_T_n (s : store) (v : field) : store :=
  {| st_t := st_t s; st_dt := st_dt s; st_T := st_T s; st_T_n := v;
     st_u := st_u s; st_u_n := st_u_n s;
     st_extrinsic_traps := st_extrinsic_traps s;
     st_previous_solutions_traps := st_previous_solutions_traps s;
     st_expressions := st_expressions s; st_properties := st_properties s;
     st_append := st_append s;
     st_derived_quantities_global := st_derived_quantities_global s |}.

Definition set_u (s : store) (v : field) : store :=
  {| st_t := st_t s; st_dt := st_dt s; st_T := st_T s; st_T_n := st_T_n s;
     st_u := v; st_u_n := st_u_n s;
     st_extrinsic_traps := st_extrinsic_traps s;
     st_previous_solutions_traps := st_previous_solutions_traps s;
     st_expressions := st_expressions s; st_properties := st_properties s;
     st_append := st_append s;
     st_derived_quantities_global := st_derived_quantities_global s |}.

Definition set_u_n (s : store) (v : field) : store :=
  {| st_t := st_t s; st_dt := st_dt s; st_T := st_T s; st_T_n := st_T_n s;
     st_u := st_u s; st_u_n := v;
     st_extrinsic_traps := st_extrinsic_traps s;
     st_previous_solutions_traps := st_previous_solutions_traps s;
     st_expressions := st_expressions s; st_properties := st_properties s;
     st_append := st_append s;
     st_derived_quantities_global := st_derived_quantities_global s |}.

Definition set_extrinsic_traps (s : store) (v : list field) : store :=
  {| st_t := st_t s; st_dt := st_dt s; st_T := st_T s; st_T_n := st_T_n s;
     st_u := st_u s; st_u_n := st_u_n s;
     st_extrinsic_traps := v;
     st_previous_solutions_traps := st_previous_solutions_traps s;
     st_expressions := st_expressions s; st_properties := st_properties s;
     st_append := st_append s;
     st_derived_quantities_global := st_derived_quantities_global s |}.

Definition set_previous_solutions_traps (s : store) (v : list field) : store :=
  {| st_t := st_t s; st_dt := st_dt s; st_T := st_T s; st_T_n := st_T_n s;
     st_u := st_u s; st_u_n := st_u_n s;
     st_extrinsic_traps := st_extrinsic_traps s;
     st_previous_solutions_traps := v;
     st_expressions := st_expressions s; st_properties := st_properties s;
     st_append := st_append s;
     st_derived_quantities_global := st_derived_quantities_global s |}.

Definition set_expressions (s : store) (v : list expression) : store :=
  {| st_t := st_t s; st_dt := st_dt s; st_T := st_T s; st_T_n := st_T_n s;
     st_u := st_u s; st_u_n := st_u_n s;
     st_extrinsic_traps := st_extrinsic_traps s;
     st_previous_solutions_traps := st_previous_solutions_traps s;
     st_expressions := v; st_properties := st_properties s;
     st_append := st_append s;
     st_derived_quantities_global := st_derived_quantities_global s |}.

Definition set_properties (s : store) (v : properties) : store :=
  {| st_t := st_t s; st_dt := st_dt s; st_T := st_T s; st_T_n := st_T_n s;
     st_u := st_u s; st_u_n := st_u_n s;
     st_extrinsic_traps := st_extrinsic_traps s;
     st_previous_solutions_traps := st_previous_solutions_traps s;
     st_expressions := st_expressions s; st_properties := v;
     st_append := st_append s;
     st_derived_quantities_global := st_derived_quantities_global s |}.

Definition set_append (s : store) (v : bool) : store :=
  {| st_t := st_t s; st_dt := st_dt s; st_T := st_T s; st_T_n := st_T_n s;
     st_u := st_u s; st_u_n := st_u_n s;
     st_extrinsic_traps := st_extrinsic_traps s;
     st_previous_solutions_traps := st_previous_solutions_traps s;
     st_expressions := st_expressions s; st_properties := st_properties s;
     st_append := v;
     st_derived_quantities_global := st_derived_quantities_global s |}.

Definition set_derived_quantities_global (s : store) (v : list row) : store :=
  {| st_t := st_t s; st_dt := st_dt s; st_T := st_T s; st_T_n := st_T_n s;
     st_u := st_u s; st_u_n := st_u_n s;
     st_extrinsic_traps := st_extrinsic_traps s;
     st_previous_solutions_traps := st_previous_solutions_traps s;
     st_expressions := st_expressions s; st_properties := st_properties s;
     st_append := st_append s;
     st_derived_quantities_global := v |}.


(** [p._T = T] for each of the four properties the loop rebinds. *)
Definition rebind_property (ps : properties) (p : property_name) (x : slot)
    : properties :=
  let b := {| prop_T := x |} in
  match p with
  | name_D =>
      {| D := b; thermal_cond := thermal_cond ps; cp := cp ps;
         rho := rho ps; H := H ps; S_ := S_ ps |}
  | name_H =>
      {| D := D ps; thermal_cond := thermal_cond ps; cp := cp ps;
         rho := rho ps; H := Some b; S_ := S_ ps |}
  | name_thermal_cond =>
      {| D := D ps; thermal_cond := Some b; cp := cp ps;
         rho := rho ps; H := H ps; S_ := S_ ps |}
  | name_S =>
      {| D := D ps; thermal_cond := thermal_cond ps; cp := cp ps;
         rho := rho ps; H := H ps; S_ := Some b |}
  end.

(** ** The trace *)

(** One event per call to a collaborator, per [Function.assign], per
    rebinding of a property and per [print].  The calls of the solvers
    and of the post-processing carry the store they are made in. *)
Inductive event :=
  | call_export_parameters
  | call_set_log_level (log_level : Z)
  | call_create_mesh
  | call_subdomains
  | call_create_function_space (n_traps : nat) (element_trap : string)
  | assign (dst src : slot)
  | assign_interpolate_T_expr (dst : slot) (t : Q)
  | assign_interpolate_T_ini (dst : slot)
  | call_define_dirichlet_bcs_T
  | call_define_variational_problem_heat_transfers
  | call_solve_stationary_heat
  | call_create_properties
  | call_initialise_solutions
  | call_initialise_extrinsic_traps (number_of_traps : nat)
  | call_formulation (transient : bool)
  | call_apply_boundary_conditions
  | call_apply_fluxes
  | call_formulation_extrinsic_traps
  | call_define_xdmf_files
  | call_header_derived_quantities
  | call_update_expressions (t : Q)
  | rebind (p : property_name) (x : slot)
  | display_time (t final_time : Q)
  | call_heat_solver (absolute_tolerance relative_tolerance : Q)
      (snapshot : store)
  | call_solve_it (snapshot : store)
  | call_solve_extrinsic_trap (j : nat) (bcs : list boundary_condition)
      (snapshot : store)
  | call_run_post_processing (transient : bool) (snapshot : store)
  | call_solve_once (snapshot : store)
  | call_project_solute
  | call_compute_error (snapshot : store)
  | call_write_to_csv
  | print (msg : string).

(** ** The monad: a trace, and a value or an exception *)

Inductive outcome (A : Type) :=
  | Return (a : A)
  | Raise (e : exn)
  | OutOfFuel.
Global Arguments Return {A} a.
Global Arguments Raise {A} e.
Global Arguments OutOfFuel {A}.

Definition M (A : Type) : Type := list event * outcome A.

Global Instance M_ret : MRet M := λ A a, ([], Return a).

Global Instance M_bind : MBind M := λ A B k m,
  match m with
  | (tr, Return a) => let '(tr', r) := k a in (tr ++ tr', r)
  | (tr, Raise e) => (tr, Raise e)
  | (tr, OutOfFuel) => (tr, OutOfFuel)
  end.

Definition emit (e : event) : M () := ([e], Return ()).
Definition raise {A : Type} (e : exn) : M A := ([], Raise e).
Definition out_of_fuel {A : Type} : M A := ([], OutOfFuel).

(** [d[key]] on an entry that may be absent. *)
Definition getitem {A : Type} (key : string) (entry : option A) : M A :=
  match entry with
  | Some v => mret v
  | None => raise (KeyError key)
  end.

(** [for j in range(j0, j0 + count): body] *)
Fixpoint for_range (j count : nat) (body : nat → store → M store)
    (s : store) : M store :=
  match count with
  | O => mret s
  | S count' =>
      s' ← body j s; for_range (S j) count' body s'
  end.


(** ** Collaborators *)

(** What [run_post_processing] leaves in the mutable objects it is handed:
    [u], [T], the [Constant] [dt] and the accumulator
    [derived_quantities_global].  The extrinsic trap fields are not among
    its arguments. *)
Record post_processing_result := {
  pp_u : field;
  pp_T : field;
  pp_dt : Q;
  pp_derived_quantities_global : list row
}.

(** The results of the calls into FESTIM and FEniCS.  A solver is a
    function of the store it is called in and yields the new content of
    the objects it is given to write.  Every call but the export of the
    parameters is taken to return: an exception of a solver or of another
    collaborator ends the run of the source at the call, and what is said
    of a step or of a run is said of those whose calls return. *)
Record collaborators := {
  (** [FESTIM.export.export_parameters]: returns, or raises an exception *)
  export_parameters : option exn;
  create_mesh : mesh;
  (** a fresh [Function(W)] and a fresh [Function(V)] *)
  Function_W : field;
  Function_V : field;
  (** [interpolate(T_expr, W)] with [T_expr.t = t] *)
  interpolate_T_expr : Q → field;
  interpolate_T_ini : field;
  (** [solve(FT == 0, T, bcs_T)] before the loop *)
  solve_stationary_heat : field;
  (** the expressions each builder registers *)
  expressions_bcs_T : list expression;
  expressions_FT : list expression;
  expressions_F : list expression;
  expressions_BC : list expression;
  expressions_fluxes : list expression;
  expressions_extrinsic : list expression;
  create_properties : properties;
  initialise_solutions : field;
  initialise_extrinsic_trap : nat → field;
  header_derived_quantities : row;
  (** [FESTIM.helpers.update_expressions(expressions, t)] *)
  update_expressions : list expression → Q → list expression;
  (** [solver.solve()] of the heat problem: the new [T] *)
  heat_solver : store → field;
  (** [FESTIM.solving.solve_it]: the new [u] and the new value of [dt] *)
  solve_it : store → field * Q;
  (** [solve(extrinsic_formulations[j] == 0, extrinsic_traps[j], [])] *)
  solve_extrinsic_trap : nat → store → field;
  run_post_processing : bool → store → post_processing_result;
  (** [FESTIM.solving.solve_once]: the new [u] *)
  solve_once : store → field;
  compute_error : store → metric
}.

(** The dictionary [run] returns. *)
Record output := {
  output_error : option metric;
  output_parameters : parameters_dict;
  output_mesh : mesh;
  output_derived_quantities : option (list row)
}.

Section Run.

Variable env : collaborators.
Variable parameters : parameters_dict.

(** ** [run], block by block *)

(** Lines 48-53, "Export parameters". *)
Definition export_parameters_block : M () :=
  if has_key (exports parameters) "parameters" then
    emit call_export_parameters;;
    match export_parameters env with
    | None => mret ()
    | Some TypeError => mret ()
    | Some e => raise e
    end
  else mret ().

(** Lines 57-66, "Check if transient". *)
Definition check_if_transient : M bool :=
  let sp := solving_parameters parameters in
  let transient := true in
  match sp_type sp with
  | Some ty =>
      if py_eq_str ty "solve_transient" then mret true
      else if py_eq_str ty "solve_stationary" then mret false
      else if bool_decide (is_Some (sp_type sp)) then
        raise (ValueError (py_str ty +:+ " unkown"))
      else mret transient
  | None => mret transient
  end.

(** [final_time] and [initial_stepsize] are bound in a transient run
    only. *)
Inductive time_parameters :=
  | transient_run (final_time initial_stepsize : Q)
  | stationary_run.

Definition is_transient (tp : time_parameters) : bool :=
  match tp with
  | transient_run _ _ => true
  | stationary_run => false
  end.

(** Lines 68-73, "Declaration of variables"; the second component is
    [dt]. *)
Definition declaration_of_variables (transient : bool)
    : M (time_parameters * Q) :=
  let sp := solving_parameters parameters in
  let dt := 0 in
  if transient then
    final_time ← getitem "final_time" (sp_final_time sp);
    initial_stepsize ← getitem "initial_stepsize" (sp_initial_stepsize sp);
    mret (transient_run final_time initial_stepsize, initial_stepsize)
  else mret (stationary_run, dt).

(** Lines 75-92: the mesh, the subdomains and the function spaces. *)
Definition mesh_and_function_spaces : M mesh :=
  emit call_create_mesh;;
  emit call_subdomains;;
  let trap_element :=
    match sp_traps_element_type (solving_parameters parameters) with
    | Some e => e
    | None => "CG"
    end in
  emit (call_create_function_space (length (traps parameters)) trap_element);;
  mret (create_mesh env).

(** Lines 94-123, "Define temperature": [T], [T_n] and the first entries
    of [expressions].  The entries ["value"] and ["initial_condition"] of
    [parameters["temperature"]] are only handed to [Expression]; they are
    taken to be there (a [KeyError] for a missing one has no counterpart
    here). *)
Definition define_temperature : M (field * field * list expression) :=
  let T := Function_W env in
  let T_n := Function_W env in
  let expressions := [] in
  if py_eq_str (temperature_type parameters) "expression" then
    emit (assign_interpolate_T_expr slot_T 0);;
    let T := interpolate_T_expr env 0 in
    emit (assign slot_T_n slot_T);;
    let T_n := T in
    mret (T, T_n, expressions)
  else
    T_n ← (if py_eq_str (temperature_type parameters) "solve_transient" then
             emit (assign_interpolate_T_ini slot_T_n);;
             mret (interpolate_T_ini env)
           else mret T_n);
    emit call_define_dirichlet_bcs_T;;
    emit call_define_variational_problem_heat_transfers;;
    let expressions :=
      expressions ++ (expressions_bcs_T env ++ expressions_FT env) in
    T ← (if py_eq_str (temperature_type parameters) "solve_stationary" then
           emit (print "Solving stationary heat equation");;
           emit call_solve_stationary_heat;;
           mret (solve_stationary_heat env)
         else mret T);
    mret (T, T_n, expressions).

(** Lines 6-21, [define_functions_and_initialise]: [u] and [u_n] (the
    test function and the unused local [initial_conditions] have no
    counterpart). *)
Definition define_functions_and_initialise : M (field * field) :=
  let u := Function_V env in
  emit call_initialise_solutions;;
  let u_n := initialise_solutions env in
  mret (u, u_n).

(** Lines 131-132: one fresh [Function(W)] per extrinsic trap of
    [parameters["traps"]]. *)
Definition extrinsic_traps : list field :=
  (λ _, Function_W env) <$> filter is_extrinsic (traps parameters).

(** Modelled from the spec: [FESTIM.initialise_solutions.initialise_extrinsic_traps]
    is not part of the sources at hand.  Each extrinsic trap owns exactly
    one current/previous field pair, so the call returns
    [number_of_traps] fields. *)
Definition initialise_extrinsic_traps (number_of_traps : nat) : list field :=
  initialise_extrinsic_trap env <$> seq 0 number_of_traps.

(** Modelled from the spec: [FESTIM.formulations.formulation_extrinsic_traps]
    is not part of the sources at hand.  There is one ODE per extrinsic
    trap, in declaration order; the forms themselves are opaque, so the
    list [extrinsic_formulations] is represented by the traps it was
    built from. *)
Definition extrinsic_formulations : list (gmap string pyval) :=
  filter is_extrinsic (traps parameters).

(** ** The time loop *)

(** Lines 185-188, "Update current time". *)
Definition update_current_time (s : store) : M store :=
  let s := set_t s (st_t s + st_dt s) in
  emit (call_update_expressions (st_t s));;
  mret (set_expressions s (update_expressions env (st_expressions s) (st_t s))).

(** Lines 190-193: a temperature given by an expression is evaluated at
    the new time ([T_expr.t = t] is read by the interpolation only). *)
Definition update_temperature_expression (s : store) : M store :=
  if py_eq_str (temperature_type parameters) "expression" then
    emit (assign slot_T_n slot_T);;
    let s := set_T_n s (st_T s) in
    emit (assign_interpolate_T_expr slot_T (st_t s));;
    mret (set_T s (interpolate_T_expr env (st_t s)))
  else mret s.

(** [expr._bci.t = t] for the expressions that have a [_bci]. *)
Definition update_bci (t : Q) (e : expression) : expression :=
  match bci_t e with
  | Some _ => {| expr_t := expr_t e; bci_t := Some t |}
  | None => e
  end.

(** Lines 194-203: the properties are bound to [T]. *)
Definition rebind_properties (s : store) : M store :=
  emit (rebind name_D slot_T);;
  let s := set_properties s (rebind_property (st_properties s) name_D slot_T) in
  s ← (match H (st_properties s) with
       | Some _ =>
           emit (rebind name_H slot_T);;
           mret (set_properties s
                   (rebind_property (st_properties s) name_H slot_T))
       | None => mret s
       end);
  s ← (match thermal_cond (st_properties s) with
       | Some _ =>
           emit (rebind name_thermal_cond slot_T);;
           mret (set_properties s
                   (rebind_property (st_properties s) name_thermal_cond slot_T))
       | None => mret s
       end);
  match S_ (st_properties s) with
  | Some _ =>
      emit (rebind name_S slot_T);;
      let s :=
        set_properties s (rebind_property (st_properties s) name_S slot_T) in
      mret (set_expressions s (update_bci (st_t s) <$> st_expressions s))
  | None => mret s
  end.

(** Lines 211-222, "Solve heat transfers". *)
Definition solve_heat_transfers (s : store) : M store :=
  if py_eq_str (temperature_type parameters) "solve_transient" then
    emit (call_heat_solver (1 # 1000) (1 # 10000000000) s);;
    let s := set_T s (heat_solver env s) in
    emit (assign slot_T_n slot_T);;
    mret (set_T_n s (st_T s))
  else mret s.

(** Lines 224-226, "Solve main problem". *)
Definition solve_main_problem (s : store) : M store :=
  emit (call_solve_it s);;
  let r := solve_it env s in
  mret (set_dt (set_u s r.1) r.2).

(** Line 230: [solve(extrinsic_formulations[j] == 0, extrinsic_traps[j], [])]. *)
Definition solve_extrinsic_trap_at (j : nat) (s : store) : M store :=
  match st_extrinsic_traps s !! j with
  | Some _ =>
      emit (call_solve_extrinsic_trap j [] s);;
      mret (set_extrinsic_traps s
              (<[j := solve_extrinsic_trap env j s]> (st_extrinsic_traps s)))
  | None => raise IndexError
  end.

(** Lines 228-230, "Solve extrinsic traps formulation". *)
Definition solve_extrinsic_traps_formulation (s : store) : M store :=
  for_range 0 (length extrinsic_formulations) solve_extrinsic_trap_at s.

(** The call of [run_post_processing] (lines 233-244 and 260-271). *)
Definition post_processing (transient : bool) (s : store) : M store :=
  emit (call_run_post_processing transient s);;
  let r := run_post_processing env transient s in
  mret (set_derived_quantities_global
          (set_dt (set_T (set_u s (pp_u r)) (pp_T r)) (pp_dt r))
          (pp_derived_quantities_global r)).

(** Line 250: [previous_solutions_traps[j].assign(extrinsic_traps[j])]. *)
Definition assign_previous_solution_trap (j : nat) (s : store) : M store :=
  match st_previous_solutions_traps s !! j, st_extrinsic_traps s !! j with
  | Some _, Some c =>
      emit (assign (slot_previous_solution_trap j) (slot_extrinsic_trap j));;
      mret (set_previous_solutions_traps s
              (<[j := c]> (st_previous_solutions_traps s)))
  | _, _ => raise IndexError
  end.

(** Lines 247-250, "Update previous solutions". *)
Definition update_previous_solutions (s : store) : M store :=
  emit (assign slot_u_n slot_u);;
  let s := set_u_n s (st_u s) in
  for_range 0 (length (st_previous_solutions_traps s))
    assign_previous_solution_trap s.

(** Lines 185-250: the body of the [while] loop.  The progress line of
    lines 205-209 is the event [display_time]; its [print] and the
    rounding of its figures are taken to return. *)
Definition time_step (final_time : Q) (s : store) : M store :=
  s ← update_current_time s;
  s ← update_temperature_expression s;
  s ← rebind_properties s;
  emit (display_time (st_t s) final_time);;
  s ← solve_heat_transfers s;
  s ← solve_main_problem s;
  s ← solve_extrinsic_traps_formulation s;
  s ← post_processing true s;
  let s := set_append s true in
  update_previous_solutions s.

(** Lines 184-250: [while t < final_time].  The loop of the model gives up
    with [OutOfFuel] after [fuel] iterations. *)
Fixpoint time_stepping (fuel : nat) (final_time : Q) (s : store) : M store :=
  if Qlt_le_dec (st_t s) final_time then
    match fuel with
    | O => out_of_fuel
    | S fuel' =>
        s' ← time_step final_time s; time_stepping fuel' final_time s'
    end
  else mret s.

(** Lines 252-271, "Solve steady state". *)
Definition solve_steady_state (s : store) : M store :=
  emit (print "Solving steady state problem...");;
  emit (call_solve_once s);;
  let s := set_u s (solve_once env s) in
  post_processing false s.

(** ** Before and after the loop *)

(** Lines 75-178: everything between the declaration of [dt] and the
    loop; yields the mesh and the store the loop starts in. *)
Definition setup (tp : time_parameters) (dt : Q) : M (mesh * store) :=
  mesh0 ← mesh_and_function_spaces;
  '(T, T_n, expressions) ← define_temperature;
  emit call_create_properties;;
  let ps := create_properties env in
  '(u, u_n) ← define_functions_and_initialise;
  let extrinsic_traps := extrinsic_traps in
  emit (call_initialise_extrinsic_traps (length extrinsic_traps));;
  let previous_solutions_traps :=
    initialise_extrinsic_traps (length extrinsic_traps) in
  emit (print "Defining variational problem");;
  emit (call_formulation (is_transient tp));;
  let expressions := expressions ++ expressions_F env in
  emit (print "Defining boundary conditions");;
  emit call_apply_boundary_conditions;;
  emit call_apply_fluxes;;
  let expressions :=
    expressions ++ (expressions_BC env ++ expressions_fluxes env) in
  expressions ← (if is_transient tp then
                   emit call_formulation_extrinsic_traps;;
                   mret (expressions ++ expressions_extrinsic env)
                 else mret expressions);
  (if has_key (exports parameters) "xdmf" then emit call_define_xdmf_files
   else mret ());;
  derived_quantities_global ←
    (if has_key (exports parameters) "derived_quantities" then
       emit call_header_derived_quantities;;
       mret [header_derived_quantities env]
     else mret []);
  mret (mesh0,
        {| st_t := 0; st_dt := dt; st_T := T; st_T_n := T_n;
           st_u := u; st_u_n := u_n;
           st_extrinsic_traps := extrinsic_traps;
           st_previous_solutions_traps := previous_solutions_traps;
           st_expressions := expressions; st_properties := ps;
           st_append := false;
           st_derived_quantities_global := derived_quantities_global |}).

(** Lines 273-297, "Store data in output". *)
Definition store_data_in_output (mesh0 : mesh) (s : store) : M output :=
  error ← (if has_key (exports parameters) "error" then
             (match S_ (st_properties s) with
              | Some _ => emit call_project_solute
              | None => mret ()
              end);;
             emit (call_compute_error s);;
             mret (Some (compute_error env s))
           else mret None);
  derived_quantities ←
    (if has_key (exports parameters) "derived_quantities" then
       emit call_write_to_csv;;
       mret (Some (st_derived_quantities_global s))
     else mret None);
  emit (print (String (Ascii.ascii_of_nat 7) "s"));;
  mret {| output_error := error; output_parameters := parameters;
          output_mesh := mesh0;
          output_derived_quantities := derived_quantities |}.

(** Lines 181-271: the loop or the single solve. *)
Definition solve (tp : time_parameters) (fuel : nat) (s : store) : M store :=
  match tp with
  | transient_run final_time _ =>
      emit (print "Time stepping...");;
      time_stepping fuel final_time s
  | stationary_run => solve_steady_state s
  end.

(** [run(parameters, log_level)]. *)
Definition run (log_level : Z) (fuel : nat) : M output :=
  export_parameters_block;;
  emit (call_set_log_level log_level);;
  transient ← check_if_transient;
  '(tp, dt) ← declaration_of_variables transient;
  '(mesh0, s) ← setup tp dt;
  s ← solve tp fuel s;
  store_data_in_output mesh0 s.

End Run.

(** ** Reading a trace *)

(** A call that builds the mesh. *)
Definition is_mesh_construction (e : event) : bool :=
  match e with
  | call_create_mesh | call_subdomains => true
  | _ => false
  end.

(** A solve of the heat problem. *)
Definition is_heat_solve (e : event) : bool :=
  match e with
  | call_solve_stationary_heat | call_heat_solver _ _ _ => true
  | _ => false
  end.

(** A solve of the transport problem. *)
Definition is_transport_solve (e : event) : bool :=
  match e with
  | call_solve_it _ | call_solve_once _ => true
  | _ => false
  end.

(** A solve of the ODE of an extrinsic trap. *)
Definition is_extrinsic_solve (e : event) : bool :=
  match e with
  | call_solve_extrinsic_trap _ _ _ => true
  | _ => false
  end.

Definition is_solve (e : event) : bool :=
  is_heat_solve e || is_transport_solve e || is_extrinsic_solve e.

Definition is_post_processing (e : event) : bool :=
  match e with
  | call_run_post_processing _ _ => true
  | _ => false
  end.

(** An assignment into a previous-value slot of the transport problem:
    [u_n] or one of [previous_solutions_traps]. *)
Definition is_commit (e : event) : bool :=
  match e with
  | assign slot_u_n _ | assign (slot_previous_solution_trap _) _ => true
  | _ => false
  end.

Definition is_rebind (e : event) : bool :=
  match e with
  | rebind _ _ => true
  | _ => false
  end.

(** The number of events of a kind in a trace. *)
Definition count (P : event → bool) (tr : list event) : nat :=
  length (List.filter P tr).


(** The export block of [run] does not end the run: either no export of
    the parameters is requested, or the export returns or raises the
    [TypeError] that [run] catches. *)
Definition export_passes (env : collaborators) (parameters : parameters_dict)
    : Prop :=
  has_key (exports parameters) "parameters" = true →
  export_parameters env = None ∨ export_parameters env = Some TypeError.

(** The store is fit for a time step of [run]: there is one current and
    one previous field per extrinsic formulation. *)
Definition consistent (parameters : parameters_dict) (s : store) : Prop :=
  length (st_extrinsic_traps s) = length (extrinsic_formulations parameters) ∧
  length (st_previous_solutions_traps s) =
    length (extrinsic_formulations parameters).


Definition is_export_call (e : event) : bool :=
  match e with
  | call_export_parameters => true
  | _ => false
  end.

(** An event of the set-up of lines 75-178. *)
Definition is_setup (e : event) : bool :=
  match e with
  | call_create_mesh | call_subdomains | call_create_function_space _ _
  | assign slot_T_n slot_T | assign_interpolate_T_expr slot_T _
  | assign_interpolate_T_ini slot_T_n
  | call_define_dirichlet_bcs_T
  | call_define_variational_problem_heat_transfers
  | call_solve_stationary_heat | call_create_properties
  | call_initialise_solutions | call_initialise_extrinsic_traps _
  | call_formulation _ | call_apply_boundary_conditions | call_apply_fluxes
  | call_formulation_extrinsic_traps | call_define_xdmf_files
  | call_header_derived_quantities | print _ => true
  | _ => false
  end.

(** An event of the output block of lines 273-297. *)
Definition is_output (e : event) : bool :=
  match e with
  | call_project_solute | call_compute_error _ | call_write_to_csv
  | print _ => true
  | _ => false
  end.

(** The collaborators [env] with another outcome of [export_parameters]. *)
Definition with_export_parameters (env : collaborators) (r : option exn)
    : collaborators :=
  {| export_parameters := r;
     create_mesh := create_mesh env;
     Function_W := Function_W env;
     Function_V := Function_V env;
     interpolate_T_expr := interpolate_T_expr env;
     interpolate_T_ini := interpolate_T_ini env;
     solve_stationary_heat := solve_stationary_heat env;
     expressions_bcs_T := expressions_bcs_T env;
     expressions_FT := expressions_FT env;
     expressions_F := expressions_F env;
     expressions_BC := expressions_BC env;
     expressions_fluxes := expressions_fluxes env;
     expressions_extrinsic := expressions_extrinsic env;
     create_properties := create_properties env;
     initialise_solutions := initialise_solutions env;
     initialise_extrinsic_trap := initialise_extrinsic_trap env;
     header_derived_quantities := header_derived_quantities env;
     update_expressions := update_expressions env;
     heat_solver := heat_solver env;
     solve_it := solve_it env;
     solve_extrinsic_trap := solve_extrinsic_trap env;
     run_post_processing := run_post_processing env;
     solve_once := solve_once env;
     compute_error := compute_error env |}.

(** An event of the body of the time loop. *)
Definition is_time_step (e : event) : bool :=
  match e with
  | call_update_expressions _
  | assign slot_T_n slot_T | assign_interpolate_T_expr slot_T _
  | rebind _ _ | display_time _ _
  | call_heat_solver _ _ _ | call_solve_it _
  | call_solve_extrinsic_trap _ _ _ | call_run_post_processing true _
  | assign slot_u_n slot_u
  | assign (slot_previous_solution_trap _) (slot_extrinsic_trap _) => true
  | _ => false
  end.

Definition is_solve_it (e : event) : bool :=
  match e with
  | call_solve_it _ => true
  | _ => false
  end.

Definition is_solve_once (e : event) : bool :=
  match e with
  | call_solve_once _ => true
  | _ => false
  end.

(** [u_n.assign(u)] *)
Definition is_u_n_commit (e : event) : bool :=
  match e with
  | assign slot_u_n slot_u => true
  | _ => false
  end.

(** The solvers and the post-processing leave the [Constant] [dt] as it
    is: the run has a fixed step size. *)
Definition keeps_dt (env : collaborators) : Prop :=
  (∀ s, (solve_it env s).2 = st_dt s) ∧
  (∀ transient s, pp_dt (run_post_processing env transient s) = st_dt s).


(** An assignment of the temperature given by an expression. *)
Definition is_temperature_assign (e : event) : bool :=
  match e with
  | assign slot_T_n slot_T | assign_interpolate_T_expr slot_T _ => true
  | _ => false
  end.

(** All four properties read the temperature from [x]. *)
Definition bound_to (x : slot) (ps : properties) : Prop :=
  prop_T (D ps) = x ∧
  (∀ p, H ps = Some p → prop_T p = x) ∧
  (∀ p, thermal_cond ps = Some p → prop_T p = x) ∧
  (∀ p, S_ ps = Some p → prop_T p = x).

(** The events of the ODE solves: trap [j] is solved in the [j]-th store
    of [snaps], with no boundary condition. *)
Definition extrinsic_solves (snaps : list store) : list event :=
  zip_with (λ k sn, call_solve_extrinsic_trap k [] sn)
    (seq 0 (length snaps)) snaps.

(** The commits of the trap fields [0], ..., [n - 1]. *)
Definition trap_commits (n : nat) : list event :=
  (λ k, assign (slot_previous_solution_trap k) (slot_extrinsic_trap k))
    <$> seq 0 n.

End Simulation.

(** ** Further readings of a run *)

Definition is_update_expressions {field row : Type} (e : @event field row)
    : bool :=
  match e with
  | call_update_expressions _ => true
  | _ => false
  end.

Definition is_define_xdmf_files {field row : Type} (e : @event field row)
    : bool :=
  match e with
  | call_define_xdmf_files => true
  | _ => false
  end.

Definition is_header_derived_quantities {field row : Type}
    (e : @event field row) : bool :=
  match e with
  | call_header_derived_quantities => true
  | _ => false
  end.

Definition is_write_to_csv {field row : Type} (e : @event field row) : bool :=
  match e with
  | call_write_to_csv => true
  | _ => false
  end.

Definition is_compute_error {field row : Type} (e : @event field row) : bool :=
  match e with
  | call_compute_error _ => true
  | _ => false
  end.

(** The element of the trap function spaces: ["CG"] unless
    [traps_element_type] is given. *)
Definition trap_element_of (parameters : parameters_dict) : string :=
  default "CG" (sp_traps_element_type (solving_parameters parameters)).

(** [1] when [exports] has the key, [0] otherwise. *)
Definition once_if_exported (parameters : parameters_dict) (key : string)
    : nat :=
  if has_key (exports parameters) key then 1 else 0.

(** The definition of the variational problem of the heat transfers. *)
Definition is_heat_formulation {field row : Type} (e : @event field row)
    : bool :=
  match e with
  | call_define_variational_problem_heat_transfers => true
  | _ => false
  end.

(** The calls that belong to the advance of time: the update of the
    expressions, the rebinding of the properties, the heat solver of the
    loop, [solve_it], and the formulation and the solves of the ODEs of
    the extrinsic traps. *)
Definition is_time_machinery {field row : Type} (e : @event field row)
    : bool :=
  match e with
  | call_update_expressions _ | rebind _ _ | call_heat_solver _ _ _
  | call_solve_it _ | call_formulation_extrinsic_traps
  | call_solve_extrinsic_trap _ _ _ => true
  | _ => false
  end.

(** Lines 57-73: the check of the solving mode followed by the
    declaration of [final_time], [initial_stepsize] and [dt]. *)
Definition resolve_mode {field row : Type} (parameters : parameters_dict)
    : @M field row (time_parameters * Q) :=
  transient ← check_if_transient parameters;
  declaration_of_variables parameters transient.

(** The number of heat solves of a run with [steps] iterations of the
    time loop, by type of temperature. *)
Definition heat_solves (temperature : pyval) (steps : nat) : nat :=
  if py_eq_str temperature "expression" then 0
  else if py_eq_str temperature "solve_stationary" then 1
  else if py_eq_str temperature "solve_transient" then steps
  else 0.

(** The post-processing only appends rows to the table of derived
    quantities. *)
Definition appends_rows {field row metric mesh : Type}
    (env : @collaborators field row metric mesh) : Prop :=
  ∀ transient s, ∃ rows,
    pp_derived_quantities_global (run_post_processing env transient s) =
      st_derived_quantities_global s ++ rows.

(** ** The output of [Simulation.make_output] *)

(** A point of the domain and a scalar field over it. *)
Definition point : Type := Q * Q.
Definition scalar_field : Type := point → Q.

(** Modelled from the spec: [Simulation.make_output] is not part of the
    sources at hand; only its test
    [test_output_of_run_with_traps_with_chemical_pot] is.  A simulation
    holds the components of [u], the transported solute variable first
    and one density per trap after it, and the solubility [S] when the
    chemical potential is active. *)
Record simulation := {
  sim_u_solute : scalar_field;
  sim_u_traps : list scalar_field;
  sim_chemical_pot : bool;
  sim_S : scalar_field
}.

(** Modelled from the spec: with chemical potential the physical
    concentration is the transported variable times [S] (as in lines
    282-284 of [run]); without it the solute is reported as it is. *)
Definition reported_solute (sim : simulation) : scalar_field :=
  if sim_chemical_pot sim then λ p, sim_u_solute sim p * sim_S sim p
  else sim_u_solute sim.

(** Modelled from the spec: the retention is the pointwise sum of the
    solute concentration and of all trap densities. *)
Definition retention (sim : simulation) : scalar_field :=
  λ p, reported_solute sim p + foldr (λ f acc, f p + acc) 0 (sim_u_traps sim).

(** ** Sample inputs *)

(** Collaborators over integer-valued fields: the transport solve adds 10
    to [u], the heat solve adds 1 to [T], the ODE solve of trap [j] yields
    [u + j], and [dt] is left alone. *)
Definition sample_properties : properties :=
  {| D := {| prop_T := slot_T_n |};
     thermal_cond := None;
     cp := None;
     rho := None;
     H := Some {| prop_T := slot_T_n |};
     S_ := Some {| prop_T := slot_T_n |} |}.

Definition sample_collaborators : @collaborators Z nat nat unit :=
  {| export_parameters := None;
     create_mesh := tt;
     Function_W := 0%Z;
     Function_V := 0%Z;
     interpolate_T_expr := λ t, Qceiling t;
     interpolate_T_ini := 300%Z;
     solve_stationary_heat := 500%Z;
     expressions_bcs_T := [];
     expressions_FT := [];
     expressions_F := [{| expr_t := 0; bci_t := None |}];
     expressions_BC := [{| expr_t := 0; bci_t := Some 0 |}];
     expressions_fluxes := [];
     expressions_extrinsic := [];
     create_properties := sample_properties;
     initialise_solutions := 7%Z;
     initialise_extrinsic_trap := λ j, Z.of_nat j;
     header_derived_quantities := 0%nat;
     update_expressions :=
       λ l t, (λ e, {| expr_t := t; bci_t := bci_t e |}) <$> l;
     heat_solver := λ s, (st_T s + 1)%Z;
     solve_it := λ s, ((st_u s + 10)%Z, st_dt s);
     solve_extrinsic_trap := λ j s, (st_u s + Z.of_nat j)%Z;
     run_post_processing := λ _ s,
       {| pp_u := st_u s; pp_T := st_T s; pp_dt := st_dt s;
          pp_derived_quantities_global :=
            st_derived_quantities_global s ++ [1%nat] |};
     solve_once := λ _, 42%Z;
     compute_error := λ _, 0%nat |}.

Definition extrinsic_trap : gmap string pyval :=
  {[ "type" := PyStr "extrinsic" ]}.

Definition intrinsic_trap : gmap string pyval := ∅.

(** A configuration with the given solving type and temperature type:
    [final_time = 1], [initial_stepsize = 0.3], three traps of which two
    are extrinsic, and the export of the parameters requested. *)
Definition sample_parameters (solving_type : option pyval)
    (temperature : string) : parameters_dict :=
  {| exports := {[ "parameters" := PyStr "out/parameters" ]};
     solving_parameters :=
       {| sp_type := solving_type;
          sp_final_time := Some 1;
          sp_initial_stepsize := Some (3 # 10);
          sp_traps_element_type := None |};
     temperature_type := PyStr temperature;
     traps := [extrinsic_trap; intrinsic_trap; extrinsic_trap] |}.

Definition transient_parameters : parameters_dict :=
  sample_parameters (Some (PyStr "solve_transient")) "solve_transient".

(** The store at the start of the loop of a run of
    [transient_parameters]. *)
Definition sample_store : @store Z nat :=
  {| st_t := 0; st_dt := 3 # 10;
     st_T := 0%Z; st_T_n := 300%Z; st_u := 0%Z; st_u_n := 7%Z;
     st_extrinsic_traps := [0%Z; 0%Z];
     st_previous_solutions_traps := [0%Z; 1%Z];
     st_expressions :=
       [{| expr_t := 0; bci_t := None |}; {| expr_t := 0; bci_t := Some 0 |}];
     st_properties := sample_properties;
     st_append := false;
     st_derived_quantities_global := [] |}.


(** A configuration with one extrinsic trap, given by its exports, its
    solving type, its time parameters and its temperature type. *)
Definition configured (exports0 : gmap string pyval)
    (solving_type : option pyval) (final_time initial_stepsize : option Q)
    (temperature : string) : parameters_dict :=
  {| exports := exports0;
     solving_parameters :=
       {| sp_type := solving_type;
          sp_final_time := final_time;
          sp_initial_stepsize := initial_stepsize;
          sp_traps_element_type := None |};
     temperature_type := PyStr temperature;
     traps := [intrinsic_trap; extrinsic_trap] |}.

(** A stationary configuration that asks for the error and for the
    derived quantities, and the dictionary its run returns. *)
Definition reporting_parameters : parameters_dict :=
  configured {[ "error" := PyNone; "derived_quantities" := PyStr "dq.csv" ]}
    (Some (PyStr "solve_stationary")) None None "solve_stationary".

Definition reporting_output : @output nat nat unit :=
  {| output_error := Some 0%nat;
     output_parameters := reporting_parameters;
     output_mesh := tt;
     output_derived_quantities := Some [0%nat; 1%nat] |}.

(** The configuration of [test_output_of_run_with_traps_with_chemical_pot]:
    [S = 3], the solute variable [1 / S], and the trap densities 2
    and 3. *)
Definition sample_simulation : simulation :=
  {| sim_u_solute := λ _, 1 / 3;
     sim_u_traps := [λ _, 2; λ _, 3];
     sim_chemical_pot := true;
     sim_S := λ _, 3 |}.

(** * Proofs *)

Section Proofs.

Context {field row metric mesh : Type}.
Variable env : @collaborators field row metric mesh.
Variable parameters : parameters_dict.

Implicit Types (s : @store field row) (tr : list (@event field row)).
Implicit Types (snaps : list (@store field row)) (P K : @event field row → bool).

Local Abbreviation trap_commits := (@trap_commits field row).
Local Abbreviation check_if_transient := (@check_if_transient field row).
Local Abbreviation declaration_of_variables :=
  (@declaration_of_variables field row).

(** ** The monad *)

Lemma bind_returns {A B : Type} (m : M A) (k : A → M B) tr1 a tr2 r :
  m = (tr1, Return a) → k a = (tr2, r) → m ≫= k = (tr1 ++ tr2, r).
Proof. intros -> Hk. unfold mbind, M_bind. by rewrite Hk. Qed.

Lemma for_range_S (j count : nat) (body : nat → store → M store) s :
  for_range j (S count) body s =
    body j s ≫= λ s', for_range (S j) count body s'.
Proof. reflexivity. Qed.

Lemma bind_out_of_fuel {A B : Type} (m : M A) (k : A → M B) tr :
  m = (tr, OutOfFuel) → m ≫= k = (tr, OutOfFuel).
Proof. by intros ->. Qed.

(** ** The blocks of a time step *)

Lemma set_T_n_T_id s : set_T (set_T_n s (st_T_n s)) (st_T s) = s.
Proof. by destruct s. Qed.

Lemma set_T_T_n_id s : set_T_n (set_T s (st_T s)) (st_T_n s) = s.
Proof. by destruct s. Qed.

Lemma update_current_time_spec s :
  update_current_time env s =
    ([call_update_expressions (st_t s + st_dt s)],
     Return (set_expressions (set_t s (st_t s + st_dt s))
               (update_expressions env (st_expressions s) (st_t s + st_dt s)))).
Proof. reflexivity. Qed.

Lemma update_temperature_expression_spec s :
  ∃ tr a b,
    update_temperature_expression env parameters s =
      (tr, Return (set_T (set_T_n s a) b)) ∧
    Forall (λ e, is_temperature_assign e = true) tr ∧
    (py_eq_str (temperature_type parameters) "expression" = false →
     tr = [] ∧ a = st_T_n s ∧ b = st_T s).
Proof.
  unfold update_temperature_expression.
  destruct (py_eq_str _ "expression").
  - eexists _, _, _. split; [reflexivity|]. split; [|done].
    repeat constructor.
  - exists [], (st_T_n s), (st_T s). by rewrite set_T_n_T_id.
Qed.

Lemma update_bci_expr_t (t : Q) (l : list expression) :
  expr_t <$> (update_bci t <$> l) = expr_t <$> l.
Proof.
  rewrite <- list_fmap_compose. apply list_fmap_ext.
  intros _ e _. unfold update_bci. simpl. by destruct (bci_t e).
Qed.

Lemma rebind_properties_spec s :
  ∃ tr ps ex,
    rebind_properties s = (rebind name_D slot_T :: tr,
                           Return (set_expressions (set_properties s ps) ex)) ∧
    Forall (λ e, is_rebind e = true) tr ∧
    bound_to slot_T ps ∧
    expr_t <$> ex = expr_t <$> st_expressions s ∧
    tr = (if H (st_properties s) is Some _
          then [rebind name_H slot_T] else []) ++
         (if thermal_cond (st_properties s) is Some _
          then [rebind name_thermal_cond slot_T] else []) ++
         (if S_ (st_properties s) is Some _
          then [rebind name_S slot_T] else []) ∧
    cp ps = cp (st_properties s) ∧
    rho ps = rho (st_properties s) ∧
    ex = (if S_ (st_properties s) is Some _
          then update_bci (st_t s) <$> st_expressions s
          else st_expressions s).
Proof.
  unfold rebind_properties.
  destruct s as [t0 dt0 T0 Tn0 u0 un0 ext0 prev0 ex0 [d tc c r h sol] ap0 dq0].
  destruct h, tc, sol; cbv -[update_bci fmap];
    eexists _, _, _; (split; [reflexivity|]).
  all: split; [repeat constructor|].
  all: split; [unfold bound_to; simpl; naive_solver|].
  all: split; [simpl; rewrite ?update_bci_expr_t; reflexivity|].
  all: repeat split; reflexivity.
Qed.

Lemma solve_heat_transfers_spec s :
  ∃ tr a b,
    solve_heat_transfers env parameters s =
      (tr, Return (set_T_n (set_T s a) b)) ∧
    (py_eq_str (temperature_type parameters) "solve_transient" = true →
     tr = [call_heat_solver (1 # 1000) (1 # 10000000000) s;
           assign slot_T_n slot_T] ∧
     a = heat_solver env s ∧ b = a) ∧
    (py_eq_str (temperature_type parameters) "solve_transient" = false →
     tr = [] ∧ a = st_T s ∧ b = st_T_n s).
Proof.
  unfold solve_heat_transfers.
  destruct (py_eq_str _ "solve_transient").
  - eexists _, _, _. split; [reflexivity|]. split; [|done]. by intros _.
  - exists [], (st_T s), (st_T_n s). by rewrite set_T_T_n_id.
Qed.

Lemma set_extrinsic_traps_id s : set_extrinsic_traps s (st_extrinsic_traps s) = s.
Proof. by destruct s. Qed.

Lemma set_previous_solutions_traps_id s :
  set_previous_solutions_traps s (st_previous_solutions_traps s) = s.
Proof. by destruct s. Qed.

(** The ODE solves [j], ..., [j + count - 1]: one call each, in order,
    made in a store that differs from [s] in the trap fields only. *)
Lemma solve_extrinsic_traps_from (j count : nat) s :
  (j + count ≤ length (st_extrinsic_traps s))%nat →
  ∃ snaps exts,
    for_range j count (solve_extrinsic_trap_at env) s =
      (zip_with (λ k sn, call_solve_extrinsic_trap k [] sn) (seq j count) snaps,
       Return (set_extrinsic_traps s exts)) ∧
    length snaps = count ∧
    length exts = length (st_extrinsic_traps s) ∧
    Forall (λ sn, ∃ l, sn = set_extrinsic_traps s l) snaps ∧
    (∀ i, (i < j)%nat → exts !! i = st_extrinsic_traps s !! i) ∧
    (∀ i sn, snaps !! i = Some sn →
       exts !! (j + i)%nat = Some (solve_extrinsic_trap env (j + i) sn)).
Proof.
  revert j s. induction count as [|count IH]; intros j s Hlen.
  - exists [], (st_extrinsic_traps s). simpl.
    rewrite set_extrinsic_traps_id. repeat split; try done.
  - rewrite for_range_S.
    destruct (lookup_lt_is_Some_2 (st_extrinsic_traps s) j) as [c Hc]; [lia|].
    set (s1 := set_extrinsic_traps s
                 (<[j:=solve_extrinsic_trap env j s]> (st_extrinsic_traps s))).
    assert (Hbody : solve_extrinsic_trap_at env j s =
                      ([call_solve_extrinsic_trap j [] s], Return s1)).
    { unfold solve_extrinsic_trap_at. by rewrite Hc. }
    destruct (IH (S j) s1) as (snaps & exts & Hrun & Hn & Hl & Hfr & Hlo & Hhi).
    { subst s1. simpl. rewrite length_insert. lia. }
    exists (s :: snaps), exts.
    split.
    { erewrite bind_returns; [|exact Hbody|exact Hrun]. by destruct s. }
    split; [simpl; lia|].
    split; [rewrite Hl; subst s1; simpl; by rewrite length_insert|].
    split.
    { constructor.
      - exists (st_extrinsic_traps s). by rewrite set_extrinsic_traps_id.
      - eapply Forall_impl; [exact Hfr|].
        intros sn [l ->]. exists l. by destruct s. }
    split.
    { intros i Hi. rewrite Hlo by lia. subst s1. simpl.
      apply list_lookup_insert_ne. lia. }
    intros [|i] sn Hsn; simpl in Hsn.
    + injection Hsn as <-. rewrite Nat.add_0_r, Hlo by lia.
      subst s1. simpl. apply list_lookup_insert_eq. lia.
    + replace (j + S i)%nat with (S j + i)%nat by lia. by apply Hhi.
Qed.

(** The commits [j], ..., [j + count - 1] of the trap fields. *)
Lemma assign_previous_solutions_from (j count : nat) s :
  (j + count ≤ length (st_previous_solutions_traps s))%nat →
  (j + count ≤ length (st_extrinsic_traps s))%nat →
  ∃ prevs,
    for_range j count assign_previous_solution_trap s =
      ((λ k, assign (slot_previous_solution_trap k) (slot_extrinsic_trap k))
         <$> seq j count,
       Return (set_previous_solutions_traps s prevs)) ∧
    length prevs = length (st_previous_solutions_traps s) ∧
    (∀ i, (i < j)%nat → prevs !! i = st_previous_solutions_traps s !! i) ∧
    (∀ i, (j ≤ i < j + count)%nat → prevs !! i = st_extrinsic_traps s !! i).
Proof.
  revert j s. induction count as [|count IH]; intros j s Hp He.
  - exists (st_previous_solutions_traps s). simpl.
    rewrite set_previous_solutions_traps_id. repeat split; try done.
    intros i Hi. lia.
  - rewrite for_range_S.
    destruct (lookup_lt_is_Some_2 (st_previous_solutions_traps s) j)
      as [p Hp']; [lia|].
    destruct (lookup_lt_is_Some_2 (st_extrinsic_traps s) j) as [c Hc]; [lia|].
    set (s1 := set_previous_solutions_traps s
                 (<[j:=c]> (st_previous_solutions_traps s))).
    assert (Hbody : assign_previous_solution_trap j s =
                      ([assign (slot_previous_solution_trap j)
                          (slot_extrinsic_trap j)], Return s1)).
    { unfold assign_previous_solution_trap. by rewrite Hp', Hc. }
    destruct (IH (S j) s1) as (prevs & Hrun & Hl & Hlo & Hmid).
    { subst s1. simpl. rewrite length_insert. lia. }
    { subst s1. simpl. lia. }
    exists prevs.
    split.
    { erewrite bind_returns; [|exact Hbody|exact Hrun]. by destruct s. }
    split; [rewrite Hl; subst s1; simpl; by rewrite length_insert|].
    split.
    { intros i Hi. rewrite Hlo by lia. subst s1. simpl.
      apply list_lookup_insert_ne. lia. }
    intros i Hi. destruct (decide (i = j)) as [->|Hne].
    + rewrite Hlo by lia. subst s1. simpl. rewrite Hc.
      apply list_lookup_insert_eq. lia.
    + rewrite Hmid by lia. by subst s1.
Qed.

(** The commit of a step, in a store with as many previous as current
    trap fields. *)
Lemma update_previous_solutions_spec s :
  length (st_previous_solutions_traps s) = length (st_extrinsic_traps s) →
  update_previous_solutions s =
    ([assign slot_u_n slot_u] ++
     ((λ k, assign (slot_previous_solution_trap k) (slot_extrinsic_trap k))
        <$> seq 0 (length (st_extrinsic_traps s))),
     Return (set_previous_solutions_traps (set_u_n s (st_u s))
               (st_extrinsic_traps s))).
Proof.
  intros Hlen. unfold update_previous_solutions.
  destruct (assign_previous_solutions_from 0
              (length (st_previous_solutions_traps (set_u_n s (st_u s))))
              (set_u_n s (st_u s)))
    as (prevs & Hrun & Hl & _ & Hmid).
  { simpl. lia. }
  { simpl. lia. }
  assert (prevs = st_extrinsic_traps s) as ->.
  { apply list_eq. intros i. simpl in *.
    destruct (decide (i < length (st_extrinsic_traps s))%nat).
    - apply Hmid. lia.
    - rewrite !lookup_ge_None_2; [done|lia|lia]. }
  erewrite bind_returns; [|reflexivity|exact Hrun].
  simpl. by rewrite Hlen.
Qed.

(** The symbolic execution of one time step. *)
Lemma time_step_spec (final_time : Q) s :
  consistent parameters s →
  ∃ trT aTn aT trR ps ex trH hT hTn snaps exts,
    let t' := st_t s + st_dt s in
    let s1 := set_expressions (set_t s t')
                (update_expressions env (st_expressions s) t') in
    let s2 := set_T (set_T_n s1 aTn) aT in
    let s3 := set_expressions (set_properties s2 ps) ex in
    let s4 := set_T_n (set_T s3 hT) hTn in
    let s5 := set_dt (set_u s4 (solve_it env s4).1) (solve_it env s4).2 in
    let s6 := set_extrinsic_traps s5 exts in
    let pp := run_post_processing env true s6 in
    let s7 := set_append
                (set_derived_quantities_global
                   (set_dt (set_T (set_u s6 (pp_u pp)) (pp_T pp)) (pp_dt pp))
                   (pp_derived_quantities_global pp)) true in
    time_step env parameters final_time s =
      ([call_update_expressions t'] ++ trT ++
       (rebind name_D slot_T :: trR) ++ [display_time t' final_time] ++
       trH ++ [call_solve_it s4] ++ extrinsic_solves snaps ++
       [call_run_post_processing true s6] ++ [assign slot_u_n slot_u] ++
       trap_commits (length (extrinsic_formulations parameters)),
       Return (set_previous_solutions_traps (set_u_n s7 (st_u s7)) exts)) ∧
    Forall (λ e, is_temperature_assign e = true) trT ∧
    (py_eq_str (temperature_type parameters) "expression" = false →
     trT = [] ∧ aTn = st_T_n s ∧ aT = st_T s) ∧
    Forall (λ e, is_rebind e = true) trR ∧
    bound_to slot_T ps ∧
    expr_t <$> ex = expr_t <$> update_expressions env (st_expressions s) t' ∧
    (py_eq_str (temperature_type parameters) "solve_transient" = true →
     trH = [call_heat_solver (1 # 1000) (1 # 10000000000) s3;
            assign slot_T_n slot_T] ∧
     hT = heat_solver env s3 ∧ hTn = hT) ∧
    (py_eq_str (temperature_type parameters) "solve_transient" = false →
     trH = [] ∧ hT = aT ∧ hTn = aTn) ∧
    length snaps = length (extrinsic_formulations parameters) ∧
    length exts = length (extrinsic_formulations parameters) ∧
    Forall (λ sn, ∃ l, sn = set_extrinsic_traps s5 l) snaps ∧
    (∀ i sn, snaps !! i = Some sn →
       exts !! i = Some (solve_extrinsic_trap env i sn)) ∧
    trR = (if H (st_properties s) is Some _
           then [rebind name_H slot_T] else []) ++
          (if thermal_cond (st_properties s) is Some _
           then [rebind name_thermal_cond slot_T] else []) ++
          (if S_ (st_properties s) is Some _
           then [rebind name_S slot_T] else []) ∧
    cp ps = cp (st_properties s) ∧
    rho ps = rho (st_properties s) ∧
    ex = (if S_ (st_properties s) is Some _
          then update_bci t' <$> update_expressions env (st_expressions s) t'
          else update_expressions env (st_expressions s) t').
Proof.
  intros [He Hp].
  set (t' := st_t s + st_dt s).
  set (s1 := set_expressions (set_t s t')
               (update_expressions env (st_expressions s) t')).
  destruct (update_temperature_expression_spec s1)
    as (trT & aTn & aT & HT & HTq & HTn).
  set (s2 := set_T (set_T_n s1 aTn) aT) in *.
  destruct (rebind_properties_spec s2)
    as (trR & ps & ex & HR & HRq & Hb & Hex & HtrR & Hcp & Hrho & Hbci).
  set (s3 := set_expressions (set_properties s2 ps) ex) in *.
  destruct (solve_heat_transfers_spec s3)
    as (trH & hT & hTn & HH & HHt & HHf).
  set (s4 := set_T_n (set_T s3 hT) hTn) in *.
  set (s5 := set_dt (set_u s4 (solve_it env s4).1) (solve_it env s4).2).
  destruct (solve_extrinsic_traps_from 0
              (length (extrinsic_formulations parameters)) s5)
    as (snaps & exts & HO & Hn & Hl & Hfr & _ & Hres).
  { simpl. lia. }
  assert (Hl' : length exts = length (extrinsic_formulations parameters)).
  { rewrite Hl. simpl. exact He. }
  exists trT, aTn, aT, trR, ps, ex, trH, hT, hTn, snaps, exts.
  cbv zeta. fold t' s1 s2 s3 s4 s5.
  set (s6 := set_extrinsic_traps s5 exts) in *.
  split.
  - unfold time_step.
    eapply bind_returns; [apply update_current_time_spec|].
    eapply bind_returns; [exact HT|].
    eapply bind_returns; [exact HR|].
    eapply bind_returns; [reflexivity|].
    eapply bind_returns; [exact HH|].
    eapply bind_returns; [reflexivity|].
    eapply bind_returns.
    { unfold solve_extrinsic_traps_formulation. etrans; [exact HO|].
      unfold extrinsic_solves. by rewrite Hn. }
    eapply bind_returns; [reflexivity|].
    rewrite update_previous_solutions_spec.
    + unfold trap_commits. simpl. by rewrite Hl'.
    + simpl. lia.
  - split; [exact HTq|].
    split; [intros Hx; destruct (HTn Hx) as (-> & -> & ->); by subst s1|].
    split; [exact HRq|]. split; [exact Hb|]. split; [exact Hex|].
    split; [exact HHt|].
    split.
    { intros Hx. destruct (HHf Hx) as (-> & -> & ->). by subst s3 s2. }
    split; [exact Hn|]. split; [exact Hl'|]. split; [exact Hfr|].
    split; [exact Hres|].
    split; [exact HtrR|]. split; [exact Hcp|]. split; [exact Hrho|].
    exact Hbci.
Qed.

(** ** Counting and ordering events *)

Lemma count_app P tr1 tr2 :
  count P (tr1 ++ tr2) = (count P tr1 + count P tr2)%nat.
Proof. unfold count. by rewrite List.filter_app, length_app. Qed.

Lemma count_cons P e tr :
  count P (e :: tr) = ((if P e then 1 else 0) + count P tr)%nat.
Proof. unfold count. simpl. by destruct (P e). Qed.

Lemma count_none P tr :
  Forall (λ e, P e = false) tr → count P tr = 0%nat.
Proof.
  induction 1 as [|e tr He _ IH]; [done|].
  rewrite count_cons, He, IH. done.
Qed.

(** When no [K] occurs in the first part and no [P] in the second, every
    [P] comes before every [K]. *)
Lemma filter_none P tr :
  Forall (λ e, P e = false) tr → List.filter P tr = [].
Proof.
  induction 1 as [|e tr He _ IH]; [done|]. simpl. by rewrite He.
Qed.



Lemma extrinsic_solves_all snaps :
  Forall (λ e, is_extrinsic_solve e = true) (extrinsic_solves snaps).
Proof.
  unfold extrinsic_solves. generalize 0%nat.
  induction snaps as [|sn snaps IH]; intros k; simpl; constructor; auto.
Qed.

Lemma trap_commits_all (n : nat) :
  Forall (λ e, is_commit e = true) (trap_commits n).
Proof.
  unfold trap_commits. apply Forall_fmap, Forall_forall. done.
Qed.

(** From "all events of the segment are of kind [K]" to "none is of kind
    [P]", for two disjoint kinds. *)
Lemma Forall_kind K P tr :
  (∀ e, K e = true → P e = false) →
  Forall (λ e, K e = true) tr → Forall (λ e, P e = false) tr.
Proof. intros HKP Htr. eapply Forall_impl; [exact Htr|exact HKP]. Qed.

Ltac disjoint_kinds :=
  let e := fresh "e" in
  intros e; destruct e; simpl; try done; repeat case_match; done.

(** ** The blocks around the loop *)

Lemma py_eq_str_true (v : pyval) (literal : string) :
  py_eq_str v literal = true ↔ v = PyStr literal.
Proof.
  destruct v; simpl; try (split; [done|congruence]).
  rewrite String.eqb_eq. split; congruence.
Qed.

Lemma py_eq_str_false (v : pyval) (literal : string) :
  v ≠ PyStr literal → py_eq_str v literal = false.
Proof.
  intros Hne. destruct (py_eq_str v literal) eqn:E; [|done].
  by apply py_eq_str_true in E.
Qed.

Lemma export_parameters_block_passes :
  export_passes env parameters →
  ∃ tr, export_parameters_block env parameters = (tr, Return ()) ∧
        Forall (λ e, is_export_call e = true) tr.
Proof.
  intros Hpass. unfold export_parameters_block, export_passes in *.
  destruct (has_key (exports parameters) "parameters").
  - destruct Hpass as [-> | ->]; [done| |]; eexists; split; try reflexivity;
      repeat constructor.
  - exists []. split; [reflexivity|constructor].
Qed.

Lemma setup_spec (tp : time_parameters) (dt : Q) :
  ∃ tr mesh0 s0,
    setup env parameters tp dt = (tr, Return (mesh0, s0)) ∧
    Forall (λ e, is_setup e = true) tr ∧
    call_formulation (is_transient tp) ∈ tr ∧
    consistent parameters s0 ∧ st_t s0 = 0 ∧ st_dt s0 = dt.
Proof.
  unfold setup, mesh_and_function_spaces, define_temperature,
    define_functions_and_initialise.
  destruct (py_eq_str (temperature_type parameters) "expression"),
    (py_eq_str (temperature_type parameters) "solve_transient"),
    (py_eq_str (temperature_type parameters) "solve_stationary"),
    (is_transient tp),
    (has_key (exports parameters) "xdmf"),
    (has_key (exports parameters) "derived_quantities").
  all: eexists _, _, _; split; [reflexivity|].
  all: split; [repeat constructor|].
  all: split; [apply list_elem_of_In; simpl; tauto|].
  all: split; [|done].
  all: unfold consistent, extrinsic_traps, initialise_extrinsic_traps,
         extrinsic_formulations; simpl.
  all: by rewrite !length_fmap, length_seq.
Qed.

Lemma store_data_in_output_spec (mesh0 : mesh) s :
  ∃ tr out,
    store_data_in_output env parameters mesh0 s = (tr, Return out) ∧
    Forall (λ e, is_output e = true) tr.
Proof.
  unfold store_data_in_output.
  destruct (has_key (exports parameters) "error"),
    (has_key (exports parameters) "derived_quantities"),
    (S_ (st_properties s)).
  all: eexists _, _; split; [reflexivity|].
  all: repeat constructor.
Qed.

(** ** The solving mode *)

(** C1.  When [solving_parameters] has a ["type"] entry whose value is
    neither ["solve_transient"] nor ["solve_stationary"], [run] raises
    the [ValueError] of line 65 (the configuration error of the
    specification), and it does so before the mesh is built and before
    any solve: the export of the parameters (when requested and not
    itself fatal) and [set_log_level] are the only calls made. *)
Theorem unknown_solving_type_raises (log_level : Z) (fuel : nat) (ty : pyval) :
  sp_type (solving_parameters parameters) = Some ty →
  ty ≠ PyStr "solve_transient" →
  ty ≠ PyStr "solve_stationary" →
  export_passes env parameters →
  ∃ tr,
    run env parameters log_level fuel =
      (tr, Raise (ValueError (py_str ty +:+ " unkown"))) ∧
    Forall (λ e, e = call_export_parameters ∨
                 e = call_set_log_level log_level) tr ∧
    Forall (λ e, is_mesh_construction e = false ∧ is_solve e = false) tr.
Proof.
  intros Hty Ht Hs Hpass.
  destruct (export_parameters_block_passes Hpass) as (tr0 & Hexp & Htr0).
  assert (Hcheck : check_if_transient parameters =
                     ([], Raise (ValueError (py_str ty +:+ " unkown")))).
  { unfold check_if_transient. rewrite Hty.
    rewrite (py_eq_str_false _ _ Ht), (py_eq_str_false _ _ Hs).
    by rewrite bool_decide_true. }
  exists (tr0 ++ [call_set_log_level log_level] ++ []).
  split.
  { unfold run. eapply bind_returns; [exact Hexp|].
    eapply bind_returns; [reflexivity|].
    by rewrite Hcheck. }
  split.
  - apply Forall_app. split.
    + eapply Forall_impl; [exact Htr0|]. intros []; simpl; try done. by left.
    + constructor; [by right|constructor].
  - apply Forall_app. split.
    + eapply Forall_impl; [exact Htr0|]. by intros [].
    + constructor; [done|constructor].
Qed.

(** C8, as the code has it.  When the export of the parameters is
    requested, a [TypeError] raised by [export_parameters] is caught and
    ignored: [run] goes on exactly as after an export that returned.  An
    exception of any other class is not caught: it ends [run] at once and
    reaches the caller. *)
Theorem export_type_error_ignored (log_level : Z) (fuel : nat) :
  has_key (exports parameters) "parameters" = true →
  (export_parameters env = Some TypeError →
   run env parameters log_level fuel =
     run (with_export_parameters env None) parameters log_level fuel) ∧
  (∀ e, export_parameters env = Some e → e ≠ TypeError →
     run env parameters log_level fuel = ([call_export_parameters], Raise e)).
Proof.
  intros Hkey. split.
  - intros He. unfold run, export_parameters_block. rewrite Hkey, He.
    reflexivity.
  - intros e He Hne. unfold run, export_parameters_block. rewrite Hkey, He.
    by destruct e.
Qed.

(** ** One time step *)

Ltac none_of_kind :=
  first
    [ eapply Forall_kind; [|eassumption]; disjoint_kinds
    | eapply Forall_kind; [|apply extrinsic_solves_all]; disjoint_kinds
    | eapply Forall_kind; [|apply trap_commits_all]; disjoint_kinds ].

Ltac count_segments :=
  rewrite ?count_app, ?count_cons; simpl;
  repeat match goal with
    | |- context [count ?P ?seg] =>
        rewrite (count_none P seg) by (first [done | none_of_kind])
    end;
  simpl.

Ltac filter_segments :=
  repeat (progress (simpl; rewrite ?List.filter_app));
  repeat match goal with
    | |- context [List.filter ?P ?seg] =>
        rewrite (filter_none P seg) by (first [done | none_of_kind])
    end;
  simpl.


Lemma time_step_summary (final_time : Q) s :
  consistent parameters s →
  ∃ tr s',
    time_step env parameters final_time s = (tr, Return s') ∧
    consistent parameters s' ∧
    st_t s' = st_t s + st_dt s ∧
    (keeps_dt env → st_dt s' = st_dt s) ∧
    Forall (λ e, is_time_step e = true) tr ∧
    count is_solve_it tr = 1%nat ∧
    count is_u_n_commit tr = 1%nat.
Proof.
  intros Hc.
  destruct (time_step_spec final_time s Hc)
    as (trT & aTn & aT & trR & ps & ex & trH & hT & hTn & snaps & exts &
        Hrun & HtrT & _ & HtrR & _ & _ & Hheat & Hnoheat & Hn & Hl & _ & _).
  cbv zeta in Hrun.
  eexists _, _. split; [exact Hrun|].
  assert (HtrH : Forall (λ e, is_time_step e = true) trH ∧
                 Forall (λ e, is_solve_it e = false) trH ∧
                 Forall (λ e, is_u_n_commit e = false) trH).
  { destruct (py_eq_str (temperature_type parameters) "solve_transient").
    - destruct Hheat as (-> & _); [done|]. repeat constructor.
    - destruct Hnoheat as (-> & _); [done|]. repeat constructor. }
  destruct HtrH as (HtrH1 & HtrH2 & HtrH3).
  split; [split; simpl; lia|].
  split; [reflexivity|].
  split.
  { intros [Hsolve Hpp]. simpl. rewrite Hpp. simpl. by rewrite Hsolve. }
  split.
  { rewrite !Forall_app, !Forall_cons. repeat split; try done.
    - eapply Forall_impl; [exact HtrT|]. disjoint_kinds.
    - eapply Forall_impl; [exact HtrR|]. disjoint_kinds.
    - eapply Forall_impl; [apply extrinsic_solves_all|]. disjoint_kinds.
    - unfold trap_commits. apply Forall_fmap, Forall_forall. done. }
  split.
  - by count_segments.
  - count_segments. rewrite count_none; [done|].
    unfold trap_commits. apply Forall_fmap, Forall_forall. done.
Qed.

(** ** The time loop *)

Lemma time_stepping_O (final_time : Q) s :
  time_stepping env parameters 0 final_time s =
    if Qlt_le_dec (st_t s) final_time then out_of_fuel else mret s.
Proof. reflexivity. Qed.

Lemma time_stepping_S (fuel : nat) (final_time : Q) s :
  time_stepping env parameters (S fuel) final_time s =
    if Qlt_le_dec (st_t s) final_time then
      time_step env parameters final_time s ≫=
        time_stepping env parameters fuel final_time
    else mret s.
Proof. reflexivity. Qed.

(** From a consistent store the loop, whose calls all return, itself
    returns or runs out of fuel, and it only makes the calls of time
    steps. *)
Lemma time_stepping_total (fuel : nat) (final_time : Q) s :
  consistent parameters s →
  ∃ tr r,
    time_stepping env parameters fuel final_time s = (tr, r) ∧
    (r = OutOfFuel ∨ ∃ s', r = Return s') ∧
    Forall (λ e, is_time_step e = true) tr.
Proof.
  revert s. induction fuel as [|fuel IH]; intros s Hc.
  - rewrite time_stepping_O. destruct (Qlt_le_dec _ _).
    + exists [], OutOfFuel. repeat split; auto.
    + exists [], (Return s). repeat split; eauto.
  - rewrite time_stepping_S. destruct (Qlt_le_dec _ _).
    + destruct (time_step_summary final_time s Hc)
        as (tr1 & s1 & Hstep & Hc1 & _ & _ & Hk1 & _).
      destruct (IH s1 Hc1) as (tr2 & r & Hloop & Hr & Hk2).
      exists (tr1 ++ tr2), r. split; [by eapply bind_returns|].
      split; [done|]. by apply Forall_app.
    + exists [], (Return s). repeat split; eauto.
Qed.

(** [n] more iterations are due when the clock stays below [final_time]
    for [n] steps of size [dt0] and reaches it with the [n]-th. *)
Lemma time_stepping_iterations (final_time dt0 : Q) (n : nat) :
  keeps_dt env →
  ∀ s fuel,
    consistent parameters s → st_dt s = dt0 → (n ≤ fuel)%nat →
    (∀ k, (k < n)%nat → st_t s + inject_Z (Z.of_nat k) * dt0 < final_time) →
    final_time <= st_t s + inject_Z (Z.of_nat n) * dt0 →
    ∃ tr s',
      time_stepping env parameters fuel final_time s = (tr, Return s') ∧
      count is_solve_it tr = n ∧
      count is_u_n_commit tr = n ∧
      st_t s' == st_t s + inject_Z (Z.of_nat n) * dt0.
Proof.
  intros Hkeep. induction n as [|n IH]; intros s fuel Hc Hdt Hfuel Hlt Hge.
  - exists [], s.
    assert (Hstop : final_time <= st_t s).
    { change (inject_Z (Z.of_nat 0)) with 0 in Hge. lra. }
    split.
    { destruct fuel; [rewrite time_stepping_O|rewrite time_stepping_S];
        destruct (Qlt_le_dec _ _); try done; lra. }
    repeat split; try done. change (inject_Z (Z.of_nat 0)) with 0. lra.
  - destruct fuel as [|fuel]; [lia|].
    rewrite time_stepping_S.
    destruct (Qlt_le_dec _ _) as [_|Hstop].
    2:{ specialize (Hlt 0%nat ltac:(lia)).
        change (inject_Z (Z.of_nat 0)) with 0 in Hlt. lra. }
    destruct (time_step_summary final_time s Hc)
      as (tr1 & s1 & Hstep & Hc1 & Ht1 & Hdt1 & _ & Hn1 & Hn1').
    specialize (Hdt1 Hkeep).
    assert (Hsucc : ∀ k : nat,
              inject_Z (Z.of_nat (S k)) == inject_Z (Z.of_nat k) + 1).
    { intros k. rewrite Nat2Z.inj_succ. unfold Z.succ.
      rewrite inject_Z_plus. reflexivity. }
    destruct (IH s1 fuel) as (tr2 & s2 & Hloop & Hn2 & Hn2' & Ht2).
    + done.
    + congruence.
    + lia.
    + intros k Hk. specialize (Hlt (S k) ltac:(lia)).
      rewrite Ht1, Hdt. rewrite Hsucc in Hlt. lra.
    + rewrite Ht1, Hdt. rewrite Hsucc in Hge. lra.
    + exists (tr1 ++ tr2), s2.
      split; [by eapply bind_returns|].
      rewrite !count_app, Hn1, Hn1', Hn2, Hn2'.
      repeat split; try done.
      rewrite Ht2, Ht1, Hdt, Hsucc. lra.
Qed.

(** C2.  In a transient run with [final_time] > 0 and a fixed step
    size [dt0] > 0, the loop started at [t = 0] ends (enough fuel given)
    after exactly [ceil(final_time / dt0)] iterations, each with one
    transport solve and one commit of [u_n]; the time [t] it ends with
    satisfies [final_time <= t < final_time + dt0]. *)
Theorem fixed_step_iteration_count (final_time dt0 : Q) s (fuel : nat) :
  0 < final_time → 0 < dt0 →
  keeps_dt env →
  consistent parameters s → st_t s = 0 → st_dt s = dt0 →
  (Z.to_nat (Qceiling (final_time / dt0)) ≤ fuel)%nat →
  ∃ tr s',
    time_stepping env parameters fuel final_time s = (tr, Return s') ∧
    Z.of_nat (count is_solve_it tr) = Qceiling (final_time / dt0) ∧
    Z.of_nat (count is_u_n_commit tr) = Qceiling (final_time / dt0) ∧
    final_time <= st_t s' ∧ st_t s' < final_time + dt0.
Proof.
  intros HF Hdt0 Hkeep Hc Ht Hdt Hfuel.
  set (x := final_time / dt0) in *.
  set (c := Qceiling x) in *.
  assert (Hx : x * dt0 == final_time).
  { unfold x. rewrite Qmult_comm. apply Qmult_div_r. lra. }
  assert (Hxpos : 0 < x).
  { unfold x. apply Qlt_shift_div_l; lra. }
  pose proof (Qle_ceiling x) as Hup. fold c in Hup.
  pose proof (Qceiling_lt x) as Hlow. fold c in Hlow.
  assert (Hcpos : (0 < c)%Z).
  { rewrite Zlt_Qlt. change (inject_Z 0) with 0. lra. }
  assert (Hn : Z.of_nat (Z.to_nat c) = c) by (apply Z2Nat.id; lia).
  assert (Hpred : inject_Z (c - 1) == inject_Z c - 1).
  { unfold Qeq. simpl. lia. }
  destruct (time_stepping_iterations final_time dt0 (Z.to_nat c) Hkeep s fuel)
    as (tr & s' & Hrun & Hsolves & Hcommits & Hend); try done.
  - intros k Hk. rewrite Ht.
    assert (Hkc : inject_Z (Z.of_nat k) < x).
    { eapply Qle_lt_trans; [|exact Hlow]. rewrite <- Zle_Qle. lia. }
    pose proof (Qmult_lt_compat_r _ _ dt0 Hdt0 Hkc). lra.
  - rewrite Ht, Hn.
    assert (H0 : 0 <= dt0) by lra.
    pose proof (Qmult_le_compat_r _ _ dt0 Hup H0). lra.
  - exists tr, s'. split; [exact Hrun|].
    rewrite Hsolves, Hcommits, Hn. repeat split; try done.
    + rewrite Hend, Ht, Hn.
      assert (H0 : 0 <= dt0) by lra.
      pose proof (Qmult_le_compat_r _ _ dt0 Hup H0). lra.
    + rewrite Hend, Ht, Hn.
      pose proof (Qmult_lt_compat_r _ _ dt0 Hdt0 Hlow) as Hm.
      rewrite Hpred in Hm. lra.
Qed.

(** ** Stationary runs and runs without a solving type *)

Lemma solve_steady_state_spec s :
  ∃ s',
    solve_steady_state env s =
      ([print "Solving steady state problem..."; call_solve_once s;
        call_run_post_processing false (set_u s (solve_once env s))],
       Return s').
Proof. eexists. reflexivity. Qed.

(** C3.  With [solving_parameters["type"] == "solve_stationary"], [run]
    returns after exactly one transport solve, which is the call of
    [solve_once], and exactly one call of the post-processing; nothing is
    ever assigned to [u_n] or to a previous solution of an extrinsic
    trap. *)
Theorem stationary_run_solves_once (log_level : Z) (fuel : nat) :
  sp_type (solving_parameters parameters) = Some (PyStr "solve_stationary") →
  export_passes env parameters →
  ∃ tr out,
    run env parameters log_level fuel = (tr, Return out) ∧
    count is_transport_solve tr = 1%nat ∧
    count is_solve_once tr = 1%nat ∧
    count is_post_processing tr = 1%nat ∧
    count is_commit tr = 0%nat.
Proof.
  intros Hty Hpass.
  destruct (export_parameters_block_passes Hpass) as (tr0 & Hexp & Htr0).
  destruct (setup_spec stationary_run 0)
    as (trS & mesh0 & s0 & Hsetup & HtrS & _).
  destruct (solve_steady_state_spec s0) as (s1 & Hsolve).
  destruct (store_data_in_output_spec mesh0 s1) as (trO & out & Hout & HtrO).
  eexists _, out. split.
  { unfold run. eapply bind_returns; [exact Hexp|].
    eapply bind_returns; [reflexivity|].
    eapply bind_returns.
    { unfold check_if_transient. rewrite Hty. reflexivity. }
    eapply bind_returns; [reflexivity|].
    eapply bind_returns; [exact Hsetup|].
    eapply bind_returns; [exact Hsolve|].
    exact Hout. }
  repeat split; by count_segments.
Qed.

Lemma solve_transient_spec (final_time dt : Q) (fuel : nat) s :
  consistent parameters s →
  ∃ tr r,
    solve env parameters (transient_run final_time dt) fuel s =
      ([print "Time stepping..."] ++ tr, r) ∧
    (r = OutOfFuel ∨ ∃ s', r = Return s') ∧
    Forall (λ e, is_time_step e = true) tr.
Proof.
  intros Hc.
  destruct (time_stepping_total fuel final_time s Hc) as (tr & r & Hrun & Hr & Htr).
  exists tr, r. split; [|done].
  unfold solve. by eapply bind_returns.
Qed.

(** C10.  When [solving_parameters] has no ["type"] entry, the check of
    the solving mode raises nothing and leaves [transient] at [True].
    [final_time] and [initial_stepsize] are then read: a missing one is a
    [KeyError], raised before the mesh is built; with both present [run]
    builds the transient formulation and enters the time loop, and
    [solve_once] is never called. *)
Theorem missing_solving_type_is_transient (log_level : Z) (fuel : nat) :
  sp_type (solving_parameters parameters) = None →
  export_passes env parameters →
  check_if_transient parameters = ([], Return true) ∧
  (sp_final_time (solving_parameters parameters) = None →
   ∃ tr,
     run env parameters log_level fuel = (tr, Raise (KeyError "final_time")) ∧
     Forall (λ e, is_mesh_construction e = false ∧ is_solve e = false) tr) ∧
  (∀ final_time,
     sp_final_time (solving_parameters parameters) = Some final_time →
     sp_initial_stepsize (solving_parameters parameters) = None →
     ∃ tr,
       run env parameters log_level fuel =
         (tr, Raise (KeyError "initial_stepsize")) ∧
       Forall (λ e, is_mesh_construction e = false ∧ is_solve e = false) tr) ∧
  (∀ final_time initial_stepsize,
     sp_final_time (solving_parameters parameters) = Some final_time →
     sp_initial_stepsize (solving_parameters parameters) =
       Some initial_stepsize →
     ∃ tr r,
       run env parameters log_level fuel = (tr, r) ∧
       call_formulation true ∈ tr ∧
       print "Time stepping..." ∈ tr ∧
       count is_solve_once tr = 0%nat).
Proof.
  intros Hty Hpass.
  destruct (export_parameters_block_passes Hpass) as (tr0 & Hexp & Htr0).
  assert (Hcheck : check_if_transient parameters = ([], Return true)).
  { unfold check_if_transient. by rewrite Hty. }
  assert (Hquiet : Forall (λ e, is_mesh_construction e = false ∧
                                is_solve e = false)
                     (tr0 ++ [call_set_log_level log_level] ++ [] ++ [])).
  { apply Forall_app. split.
    - eapply Forall_impl; [exact Htr0|]. by intros [].
    - constructor; [done|constructor]. }
  split; [exact Hcheck|].
  split; [|split].
  - intros HF. eexists. split; [|exact Hquiet].
    unfold run. eapply bind_returns; [exact Hexp|].
    eapply bind_returns; [reflexivity|].
    eapply bind_returns; [exact Hcheck|].
    unfold declaration_of_variables. by rewrite HF.
  - intros final_time HF Hdt. eexists. split; [|exact Hquiet].
    unfold run. eapply bind_returns; [exact Hexp|].
    eapply bind_returns; [reflexivity|].
    eapply bind_returns; [exact Hcheck|].
    unfold declaration_of_variables. by rewrite HF, Hdt.
  - intros final_time dt HF Hdt.
    destruct (setup_spec (transient_run final_time dt) dt)
      as (trS & mesh0 & s0 & Hsetup & HtrS & Hform & Hc & _).
    destruct (solve_transient_spec final_time dt fuel s0 Hc)
      as (trL & r & Hsolve & Hr & HtrL).
    assert (Hdecl : declaration_of_variables parameters true =
                      ([], Return (transient_run final_time dt, dt))).
    { unfold declaration_of_variables. by rewrite HF, Hdt. }
    destruct Hr as [-> | [s1 ->]].
    + eexists _, OutOfFuel. split.
      { unfold run. eapply bind_returns; [exact Hexp|].
        eapply bind_returns; [reflexivity|].
        eapply bind_returns; [exact Hcheck|].
        eapply bind_returns; [exact Hdecl|].
        eapply bind_returns; [exact Hsetup|].
        eapply bind_out_of_fuel. exact Hsolve. }
      split; [rewrite !elem_of_app; auto 10|].
      split; [rewrite !elem_of_app, !elem_of_cons; auto 10|].
      by count_segments.
    + destruct (store_data_in_output_spec mesh0 s1)
        as (trO & out & Hout & HtrO).
      eexists _, (Return out). split.
      { unfold run. eapply bind_returns; [exact Hexp|].
        eapply bind_returns; [reflexivity|].
        eapply bind_returns; [exact Hcheck|].
        eapply bind_returns; [exact Hdecl|].
        eapply bind_returns; [exact Hsetup|].
        eapply bind_returns; [exact Hsolve|].
        exact Hout. }
      split; [rewrite !elem_of_app; auto 10|].
      split; [rewrite !elem_of_app, !elem_of_cons; auto 10|].
      by count_segments.
Qed.

(** ** The order of the calls within a time step *)

Lemma app_assoc_5 (A B C D E R : list (@event field row)) :
  A ++ B ++ C ++ D ++ E ++ R = (A ++ B ++ C ++ D ++ E) ++ R.
Proof. by rewrite <- !app_assoc. Qed.

Lemma extrinsic_solves_lookup snaps j sn :
  snaps !! j = Some sn →
  extrinsic_solves snaps !! j = Some (call_solve_extrinsic_trap j [] sn).
Proof.
  intros Hsn. unfold extrinsic_solves.
  rewrite lookup_zip_with, lookup_seq_lt, Hsn; [done|].
  by eapply lookup_lt_Some.
Qed.

Lemma extrinsic_solves_length snaps :
  length (extrinsic_solves snaps) = length snaps.
Proof.
  unfold extrinsic_solves. rewrite length_zip_with, length_seq. lia.
Qed.


(** C7.  In a time step the ODEs of the extrinsic traps are solved one
    per extrinsic trap of [parameters["traps"]], trap [0] first, each
    with the empty list of boundary conditions and with the transport
    solution just computed.  These calls come after the call of
    [solve_it] and before the post-processing, which the commits of the
    previous-value slots follow. *)
Theorem extrinsic_traps_solved_in_order (final_time : Q) s :
  consistent parameters s →
  ∃ tr s' before sn_transport odes sn_pp commits,
    time_step env parameters final_time s = (tr, Return s') ∧
    tr = before ++ [call_solve_it sn_transport] ++ odes ++
         [call_run_post_processing true sn_pp] ++ commits ∧
    Forall (λ e, is_solve_it e = false ∧ is_extrinsic_solve e = false ∧
                 is_post_processing e = false ∧ is_commit e = false)
      before ∧
    length odes = length (filter is_extrinsic (traps parameters)) ∧
    (∀ j, (j < length (filter is_extrinsic (traps parameters)))%nat →
       ∃ sn, odes !! j = Some (call_solve_extrinsic_trap j [] sn) ∧
             st_u sn = (solve_it env sn_transport).1) ∧
    commits ≠ [] ∧
    Forall (λ e, is_commit e = true) commits.
Proof.
  intros Hc.
  destruct (time_step_spec final_time s Hc)
    as (trT & aTn & aT & trR & ps & ex & trH & hT & hTn & snaps & exts &
        Hrun & HtrT & _ & HtrR & _ & _ & Hheat & Hnoheat & Hn & Hl & Hfr & _).
  cbv zeta in Hrun.
  assert (HtrH : Forall (λ e, is_solve_it e = false ∧
                   is_extrinsic_solve e = false ∧
                   is_post_processing e = false ∧ is_commit e = false) trH).
  { destruct (py_eq_str (temperature_type parameters) "solve_transient").
    - destruct Hheat as (-> & _); [done|]. repeat constructor.
    - destruct Hnoheat as (-> & _); [done|]. repeat constructor. }
  rewrite app_assoc_5 in Hrun.
  eexists _, _, _, _, (extrinsic_solves snaps), _, _.
  split; [exact Hrun|].
  split; [reflexivity|].
  split.
  { rewrite !Forall_app, !Forall_cons. repeat split; try done.
    - eapply Forall_impl; [exact HtrT|]. intros e He.
      repeat split; revert e He; disjoint_kinds.
    - eapply Forall_impl; [exact HtrR|]. intros e He.
      repeat split; revert e He; disjoint_kinds. }
  split; [by rewrite extrinsic_solves_length|].
  split.
  { intros j Hj.
    destruct (lookup_lt_is_Some_2 snaps j) as [sn Hsn].
    { rewrite Hn. exact Hj. }
    exists sn. split; [by apply extrinsic_solves_lookup|].
    rewrite Forall_lookup in Hfr. by destruct (Hfr _ _ Hsn) as [l ->]. }
  split; [done|].
  constructor; [done|]. apply trap_commits_all.
Qed.


Lemma app_assoc_7 (A B C D E F G R : list (@event field row)) :
  A ++ B ++ C ++ D ++ E ++ F ++ G ++ R =
    (A ++ B ++ C ++ D ++ E ++ F) ++ G ++ R.
Proof. by rewrite <- !app_assoc. Qed.





(** * Further properties of [run] *)

Local Abbreviation resolve_mode := (@resolve_mode field row).

(** ** More on the monad and on traces *)

Lemma bind_Return_inv {A B : Type} (m : @M field row A)
    (k : A → @M field row B) tr b :
  m ≫= k = (tr, Return b) →
  ∃ tr1 a tr2, m = (tr1, Return a) ∧ k a = (tr2, Return b) ∧ tr = tr1 ++ tr2.
Proof.
  destruct m as [tr1 [a|e|]]; unfold mbind, M_bind; [|done|done].
  destruct (k a) as [tr2 r] eqn:Hk. intros [= <- ->].
  by exists tr1, a, tr2.
Qed.

Lemma emit_bind_eq {B : Type} (e : @event field row) (m : @M field row B) :
  emit e ≫= (λ _, m) = (e :: m.1, m.2).
Proof. by destruct m as [tr [b|x|]]. Qed.

Lemma ret_bind_eq {A B : Type} (a : A) (k : A → @M field row B) :
  mret a ≫= k = k a.
Proof. unfold mbind, M_bind, mret, M_ret. by destruct (k a). Qed.

Lemma count_all_kind P tr :
  Forall (λ e, P e = true) tr → count P tr = length tr.
Proof.
  induction 1 as [|e tr He _ IH]; [done|].
  rewrite count_cons, He, IH. done.
Qed.

Ltac forall_time_step :=
  rewrite ?Forall_app, ?Forall_cons, ?Forall_nil; repeat split; try done;
  first
    [ eapply Forall_impl; [eassumption|]; disjoint_kinds
    | eapply Forall_impl; [apply extrinsic_solves_all|]; disjoint_kinds
    | unfold trap_commits; apply Forall_fmap, Forall_forall; done ].

(** What a time step does to the clock, to the flag [append] and to the
    table of derived quantities, and how many calls of each kind it
    makes. *)
Lemma time_step_details (final_time : Q) s :
  consistent parameters s →
  ∃ tr s' sn_pp,
    time_step env parameters final_time s = (tr, Return s') ∧
    List.filter is_post_processing tr = [call_run_post_processing true sn_pp] ∧
    consistent parameters s' ∧
    st_t s' = st_t s + st_dt s ∧
    st_append s' = true ∧
    st_append sn_pp = st_append s ∧
    st_t sn_pp = st_t s + st_dt s ∧
    st_derived_quantities_global sn_pp = st_derived_quantities_global s ∧
    st_derived_quantities_global s' =
      pp_derived_quantities_global (run_post_processing env true sn_pp) ∧
    Forall (λ e, is_time_step e = true) tr ∧
    count is_solve_it tr = 1%nat ∧
    count is_transport_solve tr = 1%nat ∧
    count is_u_n_commit tr = 1%nat ∧
    count is_update_expressions tr = 1%nat ∧
    count is_extrinsic_solve tr = length (extrinsic_formulations parameters) ∧
    count is_heat_solve tr =
      (if py_eq_str (temperature_type parameters) "solve_transient"
       then 1 else 0)%nat.
Proof.
  intros Hc.
  destruct (time_step_spec final_time s Hc)
    as (trT & aTn & aT & trR & ps & ex & trH & hT & hTn & snaps & exts &
        Hrun & HtrT & _ & HtrR & _ & _ & Hheat & Hnoheat & Hn & Hl & _ & _).
  cbv zeta in Hrun.
  pose proof (extrinsic_solves_all snaps) as Hodes.
  pose proof (extrinsic_solves_length snaps) as Hlen.
  assert (HtrH : trH = [] ∨ ∃ sn, trH =
            [call_heat_solver (1 # 1000) (1 # 10000000000) sn;
             assign slot_T_n slot_T]).
  { destruct (py_eq_str (temperature_type parameters) "solve_transient").
    - right. destruct Hheat as (-> & _); [done|]. by eexists.
    - left. by destruct Hnoheat as (-> & _). }
  eexists _, _, _. split; [exact Hrun|].
  split.
  { destruct HtrH as [->|[sn ->]]; by filter_segments. }
  split; [split; simpl; lia|].
  do 6 (split; [reflexivity|]).
  split.
  { destruct HtrH as [->|[sn ->]]; forall_time_step. }
  destruct (py_eq_str (temperature_type parameters) "solve_transient").
  - destruct Hheat as (-> & _); [done|].
    repeat split; count_segments; try done.
    + rewrite count_none; [done|].
      unfold trap_commits. apply Forall_fmap, Forall_forall. done.
    + rewrite (count_all_kind is_extrinsic_solve) by done. lia.
  - destruct Hnoheat as (-> & _); [done|].
    repeat split; count_segments; try done.
    + rewrite count_none; [done|].
      unfold trap_commits. apply Forall_fmap, Forall_forall. done.
    + rewrite (count_all_kind is_extrinsic_solve) by done. lia.
Qed.

(** ** The blocks around the loop, in detail *)

Lemma setup_details (tp : time_parameters) (dt : Q) :
  ∃ tr s0,
    setup env parameters tp dt = (tr, Return (create_mesh env, s0)) ∧
    Forall (λ e, is_setup e = true) tr ∧
    consistent parameters s0 ∧
    st_t s0 = 0 ∧ st_dt s0 = dt ∧ st_append s0 = false ∧
    st_derived_quantities_global s0 =
      (if has_key (exports parameters) "derived_quantities"
       then [header_derived_quantities env] else []) ∧
    st_extrinsic_traps s0 = extrinsic_traps env parameters ∧
    count is_heat_solve tr = heat_solves (temperature_type parameters) 0 ∧
    count is_heat_formulation tr =
      (if py_eq_str (temperature_type parameters) "expression"
       then 0 else 1)%nat ∧
    count is_time_machinery tr = (if is_transient tp then 1 else 0)%nat.
Proof.
  unfold setup, mesh_and_function_spaces, define_temperature,
    define_functions_and_initialise, heat_solves.
  destruct (py_eq_str (temperature_type parameters) "expression"),
    (py_eq_str (temperature_type parameters) "solve_transient"),
    (py_eq_str (temperature_type parameters) "solve_stationary"),
    (is_transient tp),
    (has_key (exports parameters) "xdmf"),
    (has_key (exports parameters) "derived_quantities").
  all: eexists _, _; split; [reflexivity|].
  all: split; [repeat constructor|].
  all: split; [|done].
  all: unfold consistent, extrinsic_traps, initialise_extrinsic_traps,
         extrinsic_formulations; simpl.
  all: by rewrite !length_fmap, length_seq.
Qed.

Lemma store_data_in_output_details (mesh0 : mesh) s :
  ∃ tr out,
    store_data_in_output env parameters mesh0 s = (tr, Return out) ∧
    Forall (λ e, is_output e = true) tr ∧
    output_parameters out = parameters ∧
    output_mesh out = mesh0 ∧
    output_error out =
      (if has_key (exports parameters) "error"
       then Some (compute_error env s) else None) ∧
    output_derived_quantities out =
      (if has_key (exports parameters) "derived_quantities"
       then Some (st_derived_quantities_global s) else None).
Proof.
  unfold store_data_in_output.
  destruct (has_key (exports parameters) "error"),
    (has_key (exports parameters) "derived_quantities"),
    (S_ (st_properties s)).
  all: eexists _, _; split; [reflexivity|].
  all: split; [repeat constructor|done].
Qed.

(** From a consistent store the loop makes one transport solve, one
    post-processing call, one commit and one update of the expressions
    per iteration. *)
Lemma time_stepping_counts (fuel : nat) (final_time : Q) s :
  consistent parameters s →
  ∃ tr r,
    time_stepping env parameters fuel final_time s = (tr, r) ∧
    (r = OutOfFuel ∨ ∃ s', r = Return s' ∧ consistent parameters s') ∧
    Forall (λ e, is_time_step e = true) tr ∧
    (count is_solve_it tr ≤ fuel)%nat ∧
    count is_post_processing tr = count is_solve_it tr ∧
    count is_transport_solve tr = count is_solve_it tr ∧
    count is_u_n_commit tr = count is_solve_it tr ∧
    count is_update_expressions tr = count is_solve_it tr ∧
    count is_extrinsic_solve tr =
      (length (extrinsic_formulations parameters) * count is_solve_it tr)%nat ∧
    count is_heat_solve tr =
      (if py_eq_str (temperature_type parameters) "solve_transient"
       then count is_solve_it tr else 0)%nat.
Proof.
  revert s. induction fuel as [|fuel IH]; intros s Hc.
  - rewrite time_stepping_O. destruct (Qlt_le_dec _ _).
    + exists [], OutOfFuel. split; [done|]. split; [by left|].
      split; [constructor|]. unfold count. simpl.
      destruct (py_eq_str _ _); repeat split; lia.
    + exists [], (Return s). split; [done|]. split; [right; eauto|].
      split; [constructor|]. unfold count. simpl.
      destruct (py_eq_str _ _); repeat split; lia.
  - rewrite time_stepping_S. destruct (Qlt_le_dec _ _).
    + destruct (time_step_details final_time s Hc)
        as (tr1 & s1 & sn & Hstep & Hpp & Hc1 & _ & _ & _ & _ & _ & _ & Hk1 &
            H1 & H2 & H3 & H4 & H5 & H6).
      destruct (IH s1 Hc1)
        as (tr2 & r & Hloop & Hr & Hk2 & Hle & I1 & I2 & I3 & I4 & I5 & I6).
      assert (H0 : count is_post_processing tr1 = 1%nat).
      { unfold count. by rewrite Hpp. }
      exists (tr1 ++ tr2), r. split; [by eapply bind_returns|].
      split; [done|]. split; [by apply Forall_app|].
      rewrite !count_app, H0, H1, H2, H3, H4, H5, H6, I1, I2, I3, I4, I5, I6.
      destruct (py_eq_str _ _); repeat split; lia.
    + exists [], (Return s). split; [done|]. split; [right; eauto|].
      split; [constructor|]. unfold count. simpl.
      destruct (py_eq_str _ _); repeat split; lia.
Qed.

(** Once the solving mode is resolved, [run] is the set-up, the loop or
    the single solve, and the output block. *)
Lemma run_shape (log_level : Z) (fuel : nat) (tp : time_parameters) (dt : Q) :
  export_passes env parameters →
  resolve_mode parameters = ([], Return (tp, dt)) →
  ∃ tr0 trS s0 trL r,
    Forall (λ e, is_export_call e = true) tr0 ∧
    setup env parameters tp dt = (trS, Return (create_mesh env, s0)) ∧
    Forall (λ e, is_setup e = true) trS ∧
    solve env parameters tp fuel s0 = (trL, r) ∧
    ((r = OutOfFuel ∧
      run env parameters log_level fuel =
        (tr0 ++ [call_set_log_level log_level] ++ trS ++ trL, OutOfFuel)) ∨
     (∃ s1 trO out,
        r = Return s1 ∧
        store_data_in_output env parameters (create_mesh env) s1 =
          (trO, Return out) ∧
        Forall (λ e, is_output e = true) trO ∧
        run env parameters log_level fuel =
          (tr0 ++ [call_set_log_level log_level] ++ trS ++ trL ++ trO,
           Return out))).
Proof.
  intros Hpass Hmode.
  destruct (export_parameters_block_passes Hpass) as (tr0 & Hexp & Htr0).
  apply bind_Return_inv in Hmode as (tr1 & b & tr2 & Hcheck & Hdecl & Hnil).
  symmetry in Hnil. apply app_eq_nil in Hnil as [-> ->].
  destruct (setup_details tp dt) as (trS & s0 & Hsetup & HtrS & Hc & _).
  assert (Hsolve : ∃ trL r, solve env parameters tp fuel s0 = (trL, r) ∧
                     (r = OutOfFuel ∨ ∃ s1, r = Return s1)).
  { destruct tp as [final_time initial_stepsize|].
    - destruct (solve_transient_spec final_time initial_stepsize fuel s0 Hc)
        as (trL & r & HL & Hr & _). eauto.
    - destruct (solve_steady_state_spec s0) as (s1 & HL).
      eexists _, _. split; [exact HL|]. right. eauto. }
  destruct Hsolve as (trL & r & HL & Hr).
  exists tr0, trS, s0, trL, r.
  split; [exact Htr0|]. split; [exact Hsetup|]. split; [exact HtrS|].
  split; [exact HL|].
  destruct Hr as [-> | [s1 ->]].
  - left. split; [done|].
    change (run env parameters log_level fuel =
              (tr0 ++ [call_set_log_level log_level] ++ [] ++ [] ++
               trS ++ trL, OutOfFuel)).
    unfold run. eapply bind_returns; [exact Hexp|].
    eapply bind_returns; [reflexivity|].
    eapply bind_returns; [exact Hcheck|].
    eapply bind_returns; [exact Hdecl|].
    eapply bind_returns; [exact Hsetup|].
    eapply bind_out_of_fuel. exact HL.
  - right.
    destruct (store_data_in_output_details (create_mesh env) s1)
      as (trO & out & Hout & HtrO & _).
    exists s1, trO, out. split; [done|]. split; [exact Hout|].
    split; [exact HtrO|].
    change (run env parameters log_level fuel =
              (tr0 ++ [call_set_log_level log_level] ++ [] ++ [] ++
               trS ++ trL ++ trO, Return out)).
    unfold run. eapply bind_returns; [exact Hexp|].
    eapply bind_returns; [reflexivity|].
    eapply bind_returns; [exact Hcheck|].
    eapply bind_returns; [exact Hdecl|].
    eapply bind_returns; [exact Hsetup|].
    eapply bind_returns; [exact HL|].
    exact Hout.
Qed.

(** The loop does nothing when the clock has reached [final_time]. *)
Lemma time_stepping_stop (fuel : nat) (final_time : Q) s :
  final_time <= st_t s →
  time_stepping env parameters fuel final_time s = ([], Return s).
Proof.
  intros Hstop.
  destruct fuel; [rewrite time_stepping_O|rewrite time_stepping_S];
    destruct (Qlt_le_dec _ _); try done; lra.
Qed.

(** A run that returns has resolved its mode, set up its store, ended its
    loop or single solve, and built its output. *)
Lemma run_Return_inv (log_level : Z) (fuel : nat) tr out :
  run env parameters log_level fuel = (tr, Return out) →
  ∃ tp dt trS s0 trL s1 trO,
    resolve_mode parameters = ([], Return (tp, dt)) ∧
    setup env parameters tp dt = (trS, Return (create_mesh env, s0)) ∧
    solve env parameters tp fuel s0 = (trL, Return s1) ∧
    store_data_in_output env parameters (create_mesh env) s1 =
      (trO, Return out).
Proof.
  unfold run. intros Hrun.
  apply bind_Return_inv in Hrun as (t1 & [] & t2 & _ & Hrun & _).
  apply bind_Return_inv in Hrun as (t3 & [] & t4 & _ & Hrun & _).
  apply bind_Return_inv in Hrun as (t5 & b & t6 & Hcheck & Hrun & _).
  apply bind_Return_inv in Hrun as (t7 & [tp dt] & t8 & Hdecl & Hrun & _).
  apply bind_Return_inv in Hrun as (t9 & [mesh0 s0] & t10 & Hsetup & Hrun & _).
  apply bind_Return_inv in Hrun as (trL & s1 & trO & Hsolve & Hout & _).
  destruct (setup_details tp dt) as (trS & s0' & Hsetup' & _).
  rewrite Hsetup in Hsetup'. injection Hsetup' as -> -> ->.
  exists tp, dt, trS, s0', trL, s1, trO.
  split; [|done].
  assert (Ht5 : t5 = []).
  { unfold check_if_transient in Hcheck.
    repeat case_match; by injection Hcheck. }
  assert (Ht7 : t7 = []).
  { unfold declaration_of_variables, getitem in Hdecl.
    destruct b, (sp_final_time (solving_parameters parameters)),
      (sp_initial_stepsize (solving_parameters parameters));
      unfold mbind, M_bind, mret, M_ret, raise in Hdecl;
      by injection Hdecl. }
  subst. unfold resolve_mode.
  exact (bind_returns _ _ [] b [] _ Hcheck Hdecl).
Qed.

Lemma setup_inv (tp : time_parameters) (dt : Q) trS (mesh0 : mesh) s0 :
  setup env parameters tp dt = (trS, Return (mesh0, s0)) →
  mesh0 = create_mesh env ∧
  Forall (λ e, is_setup e = true) trS ∧
  consistent parameters s0 ∧
  st_t s0 = 0 ∧ st_dt s0 = dt ∧ st_append s0 = false ∧
  st_derived_quantities_global s0 =
    (if has_key (exports parameters) "derived_quantities"
     then [header_derived_quantities env] else []) ∧
  st_extrinsic_traps s0 = extrinsic_traps env parameters ∧
  count is_heat_solve trS = heat_solves (temperature_type parameters) 0 ∧
  count is_heat_formulation trS =
    (if py_eq_str (temperature_type parameters) "expression"
     then 0 else 1)%nat ∧
  count is_time_machinery trS = (if is_transient tp then 1 else 0)%nat.
Proof.
  intros Hsetup.
  destruct (setup_details tp dt) as (tr & s & Hs & Hrest).
  rewrite Hsetup in Hs. by injection Hs as -> -> ->.
Qed.

Lemma check_transient_explicit :
  sp_type (solving_parameters parameters) = Some (PyStr "solve_transient") →
  check_if_transient parameters = ([], Return true).
Proof. intros Hty. unfold check_if_transient. by rewrite Hty. Qed.

(** ** The guard of the export *)

(** X1.  Without a ["parameters"] entry in [exports] the export of the
    parameters is not called: whatever it would do, the run is the same,
    and its first call is [set_log_level]. *)
Theorem export_not_requested (log_level : Z) (fuel : nat) (r : option exn) :
  has_key (exports parameters) "parameters" = false →
  run env parameters log_level fuel =
    run (with_export_parameters env r) parameters log_level fuel ∧
  ∃ rest,
    (run env parameters log_level fuel).1 =
      call_set_log_level log_level :: rest.
Proof.
  intros Hkey. unfold run, export_parameters_block. rewrite Hkey.
  split; [reflexivity|].
  rewrite ret_bind_eq, emit_bind_eq. by eexists.
Qed.

(** ** Edge values of the time parameters *)

(** X2.  A transient run whose [final_time] is zero or negative makes no
    time step: it returns, for any fuel, without a transport solve, an
    ODE solve, an update of the expressions or a call of the
    post-processing, and a requested table of derived quantities holds
    its header row only. *)
Theorem no_step_when_final_time_not_positive (log_level : Z) (fuel : nat)
    (final_time dt : Q) :
  export_passes env parameters →
  resolve_mode parameters = ([], Return (transient_run final_time dt, dt)) →
  final_time <= 0 →
  ∃ tr out,
    run env parameters log_level fuel = (tr, Return out) ∧
    count is_transport_solve tr = 0%nat ∧
    count is_extrinsic_solve tr = 0%nat ∧
    count is_update_expressions tr = 0%nat ∧
    count is_post_processing tr = 0%nat ∧
    output_derived_quantities out =
      (if has_key (exports parameters) "derived_quantities"
       then Some [header_derived_quantities env] else None).
Proof.
  intros Hpass Hmode HF.
  destruct (run_shape log_level fuel _ _ Hpass Hmode)
    as (tr0 & trS & s0 & trL & r & Htr0 & Hsetup & HtrS & HL & Hrun).
  destruct (setup_inv _ _ _ _ _ Hsetup) as (_ & _ & _ & Ht & _ & _ & Hdq & _).
  unfold solve in HL.
  rewrite emit_bind_eq, time_stepping_stop in HL by (rewrite Ht; exact HF).
  injection HL as <- <-.
  destruct Hrun as [[? _]|(s1 & trO & out & [= <-] & Hout & HtrO & Hrun)];
    [done|].
  destruct (store_data_in_output_details (create_mesh env) s0)
    as (trO' & out' & Hout' & _ & _ & _ & _ & Hdq').
  rewrite Hout in Hout'. injection Hout' as <- <-.
  eexists _, out. split; [exact Hrun|].
  repeat split; try by count_segments.
  rewrite Hdq', Hdq. by destruct (has_key _ _).
Qed.

(** X3.  With a step size that is zero or negative and stays so, a loop
    that starts before [final_time] never ends: whatever the fuel, it is
    used up, one transport solve per unit. *)
Theorem non_positive_step_never_ends (fuel : nat) (final_time : Q) s :
  consistent parameters s →
  keeps_dt env →
  st_dt s <= 0 →
  st_t s < final_time →
  ∃ tr,
    time_stepping env parameters fuel final_time s = (tr, OutOfFuel) ∧
    count is_solve_it tr = fuel.
Proof.
  intros Hc Hkeep. revert s Hc.
  induction fuel as [|fuel IH]; intros s Hc Hdt Ht.
  - rewrite time_stepping_O. destruct (Qlt_le_dec _ _); [|lra]. by exists [].
  - rewrite time_stepping_S. destruct (Qlt_le_dec _ _); [|lra].
    destruct (time_step_summary final_time s Hc)
      as (tr1 & s1 & Hstep & Hc1 & Ht1 & Hdt1 & _ & Hn1 & _).
    specialize (Hdt1 Hkeep).
    destruct (IH s1 Hc1) as (tr2 & Hloop & Hn2).
    { rewrite Hdt1. exact Hdt. }
    { rewrite Ht1. lra. }
    exists (tr1 ++ tr2). split.
    + rewrite Hstep. unfold mbind, M_bind. by rewrite Hloop.
    + rewrite count_app, Hn1, Hn2. done.
Qed.

(** X11.  With the explicit type ["solve_transient"], a missing
    [final_time] is a [KeyError] that names it, also when
    [initial_stepsize] is missing too; with [final_time] present a
    missing [initial_stepsize] is the [KeyError].  Both are raised before
    the mesh is built. *)
Theorem transient_run_requires_time_parameters (log_level : Z) (fuel : nat) :
  sp_type (solving_parameters parameters) = Some (PyStr "solve_transient") →
  export_passes env parameters →
  (sp_final_time (solving_parameters parameters) = None →
   ∃ tr,
     run env parameters log_level fuel = (tr, Raise (KeyError "final_time")) ∧
     Forall (λ e, is_mesh_construction e = false ∧ is_solve e = false) tr) ∧
  (∀ final_time,
     sp_final_time (solving_parameters parameters) = Some final_time →
     sp_initial_stepsize (solving_parameters parameters) = None →
     ∃ tr,
       run env parameters log_level fuel =
         (tr, Raise (KeyError "initial_stepsize")) ∧
       Forall (λ e, is_mesh_construction e = false ∧ is_solve e = false) tr).
Proof.
  intros Hty Hpass.
  destruct (export_parameters_block_passes Hpass) as (tr0 & Hexp & Htr0).
  pose proof (check_transient_explicit Hty) as Hcheck.
  assert (Hquiet : Forall (λ e, is_mesh_construction e = false ∧
                                is_solve e = false)
                     (tr0 ++ [call_set_log_level log_level] ++ [] ++ [])).
  { apply Forall_app. split.
    - eapply Forall_impl; [exact Htr0|]. by intros [].
    - constructor; [done|constructor]. }
  split.
  - intros HF. eexists. split; [|exact Hquiet].
    unfold run. eapply bind_returns; [exact Hexp|].
    eapply bind_returns; [reflexivity|].
    eapply bind_returns; [exact Hcheck|].
    unfold declaration_of_variables. by rewrite HF.
  - intros final_time HF Hdt. eexists. split; [|exact Hquiet].
    unfold run. eapply bind_returns; [exact Hexp|].
    eapply bind_returns; [reflexivity|].
    eapply bind_returns; [exact Hcheck|].
    unfold declaration_of_variables. by rewrite HF, Hdt.
Qed.

(** ** The calls of a loop *)

(** X4.  In a loop that runs to its end the calls are balanced: as many
    calls of the post-processing, commits of [u_n] and updates of the
    expressions as transport solves, and one ODE solve per extrinsic trap
    for each of them. *)
Theorem loop_calls_are_balanced (fuel : nat) (final_time : Q) s tr s' :
  consistent parameters s →
  time_stepping env parameters fuel final_time s = (tr, Return s') →
  count is_post_processing tr = count is_solve_it tr ∧
  count is_u_n_commit tr = count is_solve_it tr ∧
  count is_update_expressions tr = count is_solve_it tr ∧
  count is_extrinsic_solve tr =
    (length (filter is_extrinsic (traps parameters)) *
     count is_solve_it tr)%nat.
Proof.
  intros Hc Hret.
  destruct (time_stepping_counts fuel final_time s Hc)
    as (tr' & r & Hrun & _ & _ & _ & H1 & _ & H3 & H4 & H5 & _).
  rewrite Hret in Hrun. injection Hrun as <- _.
  done.
Qed.

Lemma bind_trace {A B : Type} (m : @M field row A) (k : A → @M field row B)
    tr1 a :
  m = (tr1, Return a) → (m ≫= k).1 = tr1 ++ (k a).1.
Proof. intros ->. unfold mbind, M_bind. by destruct (k a). Qed.

(** Within a loop the first call of the post-processing sees the flag
    [append] as the loop found it, every later call sees it set. *)
Lemma post_processing_flags (fuel : nat) (final_time : Q) s :
  consistent parameters s →
  ∀ i e,
    List.filter is_post_processing
      (time_stepping env parameters fuel final_time s).1 !! i = Some e →
    ∃ sn, e = call_run_post_processing true sn ∧
          st_append sn = match i with O => st_append s | S _ => true end.
Proof.
  revert s. induction fuel as [|fuel IH]; intros s Hc i e.
  - rewrite time_stepping_O. by destruct (Qlt_le_dec _ _).
  - rewrite time_stepping_S. destruct (Qlt_le_dec _ _); [|done].
    destruct (time_step_details final_time s Hc)
      as (tr1 & s1 & sn & Hstep & Hpp & Hc1 & _ & Ha1 & Ha & _).
    rewrite (bind_trace _ _ _ _ Hstep), List.filter_app, Hpp.
    destruct i as [|i]; simpl.
    + intros [= <-]. by exists sn.
    + intros He. destruct (IH s1 Hc1 i e He) as (sn' & -> & Hsn').
      exists sn'. split; [done|]. rewrite Hsn', Ha1. by destruct i.
Qed.

(** X5.  In a transient run the first call of the post-processing is
    made with [append] at [False] and every later one with [append] at
    [True]. *)
Theorem first_post_processing_does_not_append (log_level : Z) (fuel : nat)
    (final_time dt : Q) :
  export_passes env parameters →
  resolve_mode parameters = ([], Return (transient_run final_time dt, dt)) →
  ∀ i e,
    List.filter is_post_processing (run env parameters log_level fuel).1 !! i =
      Some e →
    ∃ sn, e = call_run_post_processing true sn ∧
          st_append sn = match i with O => false | S _ => true end.
Proof.
  intros Hpass Hmode i e.
  destruct (run_shape log_level fuel _ _ Hpass Hmode)
    as (tr0 & trS & s0 & trL & r & Htr0 & Hsetup & HtrS & HL & Hrun).
  destruct (setup_inv _ _ _ _ _ Hsetup) as (_ & _ & Hc & _ & _ & Ha & _).
  unfold solve in HL. rewrite emit_bind_eq in HL. injection HL as <- <-.
  assert (Hfilter :
    List.filter is_post_processing (run env parameters log_level fuel).1 =
    List.filter is_post_processing
      (time_stepping env parameters fuel final_time s0).1).
  { destruct Hrun as [[_ ->]|(s1 & trO & out & _ & _ & HtrO & ->)];
      filter_segments; by rewrite ?app_nil_r. }
  rewrite Hfilter. intros He.
  destruct (post_processing_flags fuel final_time s0 Hc i e He)
    as (sn & -> & Hsn).
  exists sn. split; [done|]. by rewrite Hsn, Ha.
Qed.

(** ** The heat problem, by type of temperature *)

Lemma heat_solves_add (ty : pyval) (k : nat) :
  (heat_solves ty 0 +
   (if py_eq_str ty "solve_transient" then k else 0))%nat = heat_solves ty k.
Proof.
  unfold heat_solves.
  destruct (py_eq_str ty "expression") eqn:E1.
  { apply py_eq_str_true in E1 as ->. done. }
  destruct (py_eq_str ty "solve_stationary") eqn:E2.
  { apply py_eq_str_true in E2 as ->. done. }
  by destruct (py_eq_str ty "solve_transient").
Qed.

(** X7.  In a run that returns, the variational problem of the heat
    transfers is defined once unless the temperature is an expression,
    for which it is not defined.  It is solved never for an expression,
    once (before the loop or the single solve) for ["solve_stationary"],
    once per transport solve of the loop for ["solve_transient"], and
    never for a type that is none of the three. *)
Theorem heat_solves_by_temperature_type (log_level : Z) (fuel : nat)
    (tp : time_parameters) (dt : Q) tr out :
  export_passes env parameters →
  resolve_mode parameters = ([], Return (tp, dt)) →
  run env parameters log_level fuel = (tr, Return out) →
  count is_heat_solve tr =
    heat_solves (temperature_type parameters) (count is_solve_it tr) ∧
  count is_heat_formulation tr =
    (if py_eq_str (temperature_type parameters) "expression"
     then 0 else 1)%nat.
Proof.
  intros Hpass Hmode Hret.
  destruct (run_shape log_level fuel _ _ Hpass Hmode)
    as (tr0 & trS & s0 & trL & r & Htr0 & Hsetup & HtrS & HL & Hrun).
  destruct (setup_inv _ _ _ _ _ Hsetup)
    as (_ & _ & Hc & _ & _ & _ & _ & _ & HheatS & HformS & _).
  assert (HtrL :
    count is_heat_solve trL =
      (if py_eq_str (temperature_type parameters) "solve_transient"
       then count is_solve_it trL else 0)%nat ∧
    count is_heat_formulation trL = 0%nat).
  { destruct tp as [final_time initial_stepsize|].
    - unfold solve in HL. rewrite emit_bind_eq in HL. injection HL as <- _.
      destruct (time_stepping_counts fuel final_time s0 Hc)
        as (tr' & r' & Hloop & _ & Hk & _ & _ & _ & _ & _ & _ & Hheat).
      rewrite Hloop. simpl. rewrite !count_cons. simpl.
      split; [exact Hheat|]. by count_segments.
    - destruct (solve_steady_state_spec s0) as (s1 & Hsteady).
      unfold solve in HL. rewrite Hsteady in HL. injection HL as <- _.
      destruct (py_eq_str (temperature_type parameters) "solve_transient");
        split; reflexivity. }
  destruct HtrL as [HheatL HformL].
  destruct Hrun as [[_ Hrun]|(s1 & trO & out' & _ & _ & HtrO & Hrun)].
  { rewrite Hrun in Hret. discriminate. }
  rewrite Hrun in Hret.
  assert (Htr : tr =
            tr0 ++ [call_set_log_level log_level] ++ trS ++ trL ++ trO)
    by congruence.
  subst tr.
  assert (Hsolve_it :
            count is_solve_it
              (tr0 ++ [call_set_log_level log_level] ++ trS ++ trL ++ trO) =
            count is_solve_it trL).
  { count_segments. lia. }
  rewrite Hsolve_it.
  rewrite <- heat_solves_add, <- HheatS, <- HheatL.
  split; count_segments; rewrite ?HformS, ?HformL; lia.
Qed.

(** ** Stationary runs *)

(** X8.  A stationary run stays at [t = 0] with [dt = 0]: [solve_once]
    and then the post-processing, with [append] at [False], are called
    there.  The expressions are never updated, the properties never
    rebound, and the ODEs of the extrinsic traps neither formulated nor
    solved: the trap fields are still the fresh functions of the
    set-up. *)
Theorem stationary_run_stays_at_time_zero (log_level : Z) (fuel : nat) :
  sp_type (solving_parameters parameters) = Some (PyStr "solve_stationary") →
  export_passes env parameters →
  ∃ tr out sn,
    run env parameters log_level fuel = (tr, Return out) ∧
    call_solve_once sn ∈ tr ∧
    call_run_post_processing false (set_u sn (solve_once env sn)) ∈ tr ∧
    st_t sn = 0 ∧ st_dt sn = 0 ∧ st_append sn = false ∧
    st_extrinsic_traps sn =
      ((λ _, Function_W env) <$> filter is_extrinsic (traps parameters)) ∧
    count is_time_machinery tr = 0%nat.
Proof.
  intros Hty Hpass.
  assert (Hmode : resolve_mode parameters = ([], Return (stationary_run, 0))).
  { unfold resolve_mode, check_if_transient. by rewrite Hty. }
  destruct (run_shape log_level fuel _ _ Hpass Hmode)
    as (tr0 & trS & s0 & trL & r & Htr0 & Hsetup & HtrS & HL & Hrun).
  destruct (setup_inv _ _ _ _ _ Hsetup)
    as (_ & _ & _ & Ht & Hdt & Ha & _ & Hext & _ & _ & Hmach).
  destruct (solve_steady_state_spec s0) as (s1 & Hsteady).
  unfold solve in HL. rewrite Hsteady in HL. injection HL as <- <-.
  destruct Hrun as [[? _]|(s1' & trO & out & _ & _ & HtrO & Hrun)]; [done|].
  eexists _, out, s0. split; [exact Hrun|].
  split; [rewrite !elem_of_app, !elem_of_cons; auto 10|].
  split; [rewrite !elem_of_app, !elem_of_cons; auto 10|].
  do 4 (split; [done|]).
  count_segments. rewrite Hmach. done.
Qed.

(** ** The returned dictionary *)

(** X9.  The dictionary a run returns echoes [parameters], holds the
    mesh that was built, has an ["error"] entry exactly when [exports]
    has one, and a ["derived_quantities"] entry exactly when [exports]
    has one. *)
Theorem output_entries (log_level : Z) (fuel : nat) tr out :
  run env parameters log_level fuel = (tr, Return out) →
  output_parameters out = parameters ∧
  output_mesh out = create_mesh env ∧
  (is_Some (output_error out) ↔ has_key (exports parameters) "error" = true) ∧
  (is_Some (output_derived_quantities out) ↔
   has_key (exports parameters) "derived_quantities" = true).
Proof.
  intros Hrun.
  apply run_Return_inv
    in Hrun as (tp & dt & trS & s0 & trL & s1 & trO & _ & _ & _ & Hout).
  destruct (store_data_in_output_details (create_mesh env) s1)
    as (trO' & out' & Hout' & _ & Hp & Hm & He & Hdq).
  rewrite Hout in Hout'. injection Hout' as <- <-.
  split; [exact Hp|]. split; [exact Hm|].
  rewrite He, Hdq.
  destruct (has_key _ "error"), (has_key _ "derived_quantities");
    repeat split; intros; try done; by apply is_Some_None in H0.
Qed.

Lemma time_stepping_rows (fuel : nat) (final_time : Q) s tr s' :
  appends_rows env →
  consistent parameters s →
  time_stepping env parameters fuel final_time s = (tr, Return s') →
  ∃ rows,
    st_derived_quantities_global s' = st_derived_quantities_global s ++ rows.
Proof.
  intros Happ. revert s tr. induction fuel as [|fuel IH]; intros s tr Hc.
  - rewrite time_stepping_O. destruct (Qlt_le_dec _ _); [done|].
    intros [= <- <-]. exists []. by rewrite app_nil_r.
  - rewrite time_stepping_S. destruct (Qlt_le_dec _ _).
    + intros Hrun.
      apply bind_Return_inv in Hrun as (tr1 & s1 & tr2 & Hstep & Hloop & _).
      destruct (time_step_details final_time s Hc)
        as (tr1' & s1' & sn & Hstep' & _ & Hc1 & _ & _ & _ & _ & Hsn & Hdq & _).
      rewrite Hstep in Hstep'. injection Hstep' as <- <-.
      destruct (IH s1 tr2 Hc1 Hloop) as (rows2 & Hrows2).
      destruct (Happ true sn) as (rows1 & Hrows1).
      exists (rows1 ++ rows2).
      by rewrite Hrows2, Hdq, Hrows1, Hsn, app_assoc.
    + intros [= <- <-]. exists []. by rewrite app_nil_r.
Qed.

(** X10.  When the derived quantities are requested and the
    post-processing only appends rows to their table, the table a run
    returns begins with the header row. *)
Theorem derived_quantities_begin_with_header (log_level : Z) (fuel : nat)
    tr out :
  run env parameters log_level fuel = (tr, Return out) →
  has_key (exports parameters) "derived_quantities" = true →
  appends_rows env →
  ∃ rows,
    output_derived_quantities out =
      Some (header_derived_quantities env :: rows).
Proof.
  intros Hrun Hkey Happ.
  apply run_Return_inv
    in Hrun as (tp & dt & trS & s0 & trL & s1 & trO & _ & Hsetup & HL & Hout).
  destruct (setup_inv _ _ _ _ _ Hsetup) as (_ & _ & Hc & _ & _ & _ & Hdq0 & _).
  rewrite Hkey in Hdq0.
  destruct (store_data_in_output_details (create_mesh env) s1)
    as (trO' & out' & Hout' & _ & _ & _ & _ & Hdq).
  rewrite Hout in Hout'. injection Hout' as <- <-.
  rewrite Hkey in Hdq.
  assert (Hrows : ∃ rows,
            st_derived_quantities_global s1 =
              st_derived_quantities_global s0 ++ rows).
  { destruct tp as [final_time initial_stepsize|].
    - unfold solve in HL.
      apply bind_Return_inv in HL as (t1 & [] & t2 & _ & HL & _).
      by eapply time_stepping_rows.
    - destruct (solve_steady_state_spec s0) as (s1' & Hsteady).
      unfold solve in HL. rewrite HL in Hsteady. injection Hsteady as _ <-.
      unfold solve_steady_state, post_processing in HL.
      rewrite !emit_bind_eq in HL. injection HL as _ <-. simpl.
      destruct (Happ false (set_u s0 (solve_once env s0))) as (rows & ->).
      by exists rows. }
  destruct Hrows as (rows & Hrows).
  exists rows. by rewrite Hdq, Hrows, Hdq0.
Qed.

(** ** More on one time step *)

(** A time step is the sequence of its blocks. *)
Lemma time_step_compose (final_time : Q) s trT aTn aT trR ps ex trH hT hTn
    snaps exts :
  let t' := st_t s + st_dt s in
  let s1 := set_expressions (set_t s t')
              (update_expressions env (st_expressions s) t') in
  let s2 := set_T (set_T_n s1 aTn) aT in
  let s3 := set_expressions (set_properties s2 ps) ex in
  let s4 := set_T_n (set_T s3 hT) hTn in
  let s5 := set_dt (set_u s4 (solve_it env s4).1) (solve_it env s4).2 in
  let s6 := set_extrinsic_traps s5 exts in
  let pp := run_post_processing env true s6 in
  let s7 := set_append
              (set_derived_quantities_global
                 (set_dt (set_T (set_u s6 (pp_u pp)) (pp_T pp)) (pp_dt pp))
                 (pp_derived_quantities_global pp)) true in
  consistent parameters s →
  update_temperature_expression env parameters s1 = (trT, Return s2) →
  rebind_properties s2 = (rebind name_D slot_T :: trR, Return s3) →
  solve_heat_transfers env parameters s3 = (trH, Return s4) →
  for_range 0 (length (extrinsic_formulations parameters))
    (solve_extrinsic_trap_at env) s5 = (extrinsic_solves snaps, Return s6) →
  length exts = length (extrinsic_formulations parameters) →
  time_step env parameters final_time s =
    ([call_update_expressions t'] ++ trT ++
     (rebind name_D slot_T :: trR) ++ [display_time t' final_time] ++
     trH ++ [call_solve_it s4] ++ extrinsic_solves snaps ++
     [call_run_post_processing true s6] ++ [assign slot_u_n slot_u] ++
     trap_commits (length (extrinsic_formulations parameters)),
     Return (set_previous_solutions_traps (set_u_n s7 (st_u s7)) exts)).
Proof.
  intros t' s1 s2 s3 s4 s5 s6 pp s7 [He Hp] HT HR HH HO Hl.
  unfold time_step.
  eapply bind_returns; [apply update_current_time_spec|].
  eapply bind_returns; [exact HT|].
  eapply bind_returns; [exact HR|].
  eapply bind_returns; [reflexivity|].
  eapply bind_returns; [exact HH|].
  eapply bind_returns; [reflexivity|].
  eapply bind_returns; [exact HO|].
  eapply bind_returns; [reflexivity|].
  rewrite update_previous_solutions_spec.
  - unfold trap_commits. simpl. by rewrite Hl.
  - simpl. lia.
Qed.

(** X6.  In a time step of a run whose temperature is an expression no
    heat problem is solved: [T_n] receives the value [T] had, [T] the
    interpolation of the expression at the new time [t + dt], and the
    transport problem is solved with these. *)
Theorem expression_temperature_step (final_time : Q) s :
  consistent parameters s →
  temperature_type parameters = PyStr "expression" →
  ∃ tr s' sn,
    time_step env parameters final_time s = (tr, Return s') ∧
    call_solve_it sn ∈ tr ∧
    assign_interpolate_T_expr slot_T (st_t s + st_dt s) ∈ tr ∧
    count is_heat_solve tr = 0%nat ∧
    st_T sn = interpolate_T_expr env (st_t s + st_dt s) ∧
    st_T_n sn = st_T s.
Proof.
  intros Hc Hty.
  set (t' := st_t s + st_dt s).
  set (s1 := set_expressions (set_t s t')
               (update_expressions env (st_expressions s) t')).
  assert (HT : update_temperature_expression env parameters s1 =
                 ([assign slot_T_n slot_T;
                   assign_interpolate_T_expr slot_T t'],
                  Return (set_T (set_T_n s1 (st_T s))
                            (interpolate_T_expr env t')))).
  { unfold update_temperature_expression. by rewrite Hty. }
  set (s2 := set_T (set_T_n s1 (st_T s)) (interpolate_T_expr env t')) in *.
  destruct (rebind_properties_spec s2) as (trR & ps & ex & HR & HRq & _).
  set (s3 := set_expressions (set_properties s2 ps) ex) in *.
  destruct (solve_heat_transfers_spec s3)
    as (trH & hT & hTn & HH & _ & HHf).
  destruct HHf as (-> & -> & ->); [by rewrite Hty|].
  set (s4 := set_T_n (set_T s3 (st_T s3)) (st_T_n s3)) in *.
  set (s5 := set_dt (set_u s4 (solve_it env s4).1) (solve_it env s4).2).
  destruct (solve_extrinsic_traps_from 0
              (length (extrinsic_formulations parameters)) s5)
    as (snaps & exts & HO & Hn & Hl & _).
  { destruct Hc as [He _]. simpl. lia. }
  assert (HO' : for_range 0 (length (extrinsic_formulations parameters))
                  (solve_extrinsic_trap_at env) s5 =
                (extrinsic_solves snaps, Return (set_extrinsic_traps s5 exts))).
  { rewrite HO. unfold extrinsic_solves. by rewrite Hn. }
  assert (Hl' : length exts = length (extrinsic_formulations parameters)).
  { rewrite Hl. simpl. by destruct Hc. }
  pose proof (time_step_compose final_time s _ _ _ _ _ _ _ _ _ _ _
                Hc HT HR HH HO' Hl') as Hrun.
  cbv zeta in Hrun.
  pose proof (extrinsic_solves_all snaps) as Hodes.
  eexists _, _, s4. split; [exact Hrun|].
  split; [rewrite !elem_of_app, !elem_of_cons; auto 10|].
  split; [rewrite !elem_of_app, !elem_of_cons; auto 10|].
  split; [by count_segments|].
  by split.
Qed.

(** The ODE solves [j], ..., [j + count - 1], with the content of the
    trap fields at each call. *)
Lemma solve_extrinsic_traps_seq (j count : nat) s :
  (j + count ≤ length (st_extrinsic_traps s))%nat →
  ∃ snaps exts,
    for_range j count (solve_extrinsic_trap_at env) s =
      (zip_with (λ k sn, call_solve_extrinsic_trap k [] sn) (seq j count) snaps,
       Return (set_extrinsic_traps s exts)) ∧
    length snaps = count ∧
    length exts = length (st_extrinsic_traps s) ∧
    ∀ i sn, snaps !! i = Some sn →
      ∃ l, sn = set_extrinsic_traps s l ∧
           (∀ k, (k < j ∨ j + i ≤ k)%nat → l !! k = st_extrinsic_traps s !! k) ∧
           (∀ i' sn', (i' < i)%nat → snaps !! i' = Some sn' →
              l !! (j + i')%nat =
                Some (solve_extrinsic_trap env (j + i') sn')).
Proof.
  revert j s. induction count as [|count IH]; intros j s Hlen.
  - exists [], (st_extrinsic_traps s). simpl.
    rewrite set_extrinsic_traps_id. repeat split; try done.
  - rewrite for_range_S.
    destruct (lookup_lt_is_Some_2 (st_extrinsic_traps s) j) as [c Hc]; [lia|].
    set (s1 := set_extrinsic_traps s
                 (<[j:=solve_extrinsic_trap env j s]> (st_extrinsic_traps s))).
    assert (Hbody : solve_extrinsic_trap_at env j s =
                      ([call_solve_extrinsic_trap j [] s], Return s1)).
    { unfold solve_extrinsic_trap_at. by rewrite Hc. }
    destruct (IH (S j) s1) as (snaps & exts & Hrun & Hn & Hl & Hsn).
    { subst s1. simpl. rewrite length_insert. lia. }
    exists (s :: snaps), exts.
    split.
    { erewrite bind_returns; [|exact Hbody|exact Hrun]. by destruct s. }
    split; [simpl; lia|].
    split; [rewrite Hl; subst s1; simpl; by rewrite length_insert|].
    intros [|i] sn Hi; simpl in Hi.
    + injection Hi as <-. exists (st_extrinsic_traps s).
      split; [by rewrite set_extrinsic_traps_id|].
      split; [done|]. intros i' sn' Hi'. lia.
    + destruct (Hsn i sn Hi) as (l & -> & Hframe & Hdone).
      exists l. split; [by destruct s|].
      split.
      * intros k Hk. rewrite Hframe by lia. subst s1. simpl.
        apply list_lookup_insert_ne. lia.
      * intros [|i'] sn' Hi' Hsn'; simpl in Hsn'.
        -- injection Hsn' as <-. rewrite Nat.add_0_r, Hframe by lia.
           subst s1. simpl. apply list_lookup_insert_eq. lia.
        -- replace (j + S i')%nat with (S j + i')%nat by lia.
           apply Hdone; [lia|done].
Qed.

(** X14.  Within a time step the ODEs of the extrinsic traps are solved
    one after another in the same store: when trap [j] is solved, the
    fields of the traps before it already hold the results of their
    solves of this step, and the fields from [j] on still hold the
    values of the start of the step. *)
Theorem extrinsic_traps_solved_one_after_another (final_time : Q) s :
  consistent parameters s →
  ∃ tr s' before snaps after,
    time_step env parameters final_time s = (tr, Return s') ∧
    tr = before ++ extrinsic_solves snaps ++ after ∧
    length snaps = length (filter is_extrinsic (traps parameters)) ∧
    ∀ j sn, snaps !! j = Some sn →
      (∀ i sn_i, (i < j)%nat → snaps !! i = Some sn_i →
         st_extrinsic_traps sn !! i =
           Some (solve_extrinsic_trap env i sn_i)) ∧
      (∀ k, (j ≤ k)%nat →
         st_extrinsic_traps sn !! k = st_extrinsic_traps s !! k).
Proof.
  intros Hc.
  set (t' := st_t s + st_dt s).
  set (s1 := set_expressions (set_t s t')
               (update_expressions env (st_expressions s) t')).
  destruct (update_temperature_expression_spec s1)
    as (trT & aTn & aT & HT & _).
  set (s2 := set_T (set_T_n s1 aTn) aT) in *.
  destruct (rebind_properties_spec s2) as (trR & ps & ex & HR & _).
  set (s3 := set_expressions (set_properties s2 ps) ex) in *.
  destruct (solve_heat_transfers_spec s3) as (trH & hT & hTn & HH & _).
  set (s4 := set_T_n (set_T s3 hT) hTn) in *.
  set (s5 := set_dt (set_u s4 (solve_it env s4).1) (solve_it env s4).2).
  destruct (solve_extrinsic_traps_seq 0
              (length (extrinsic_formulations parameters)) s5)
    as (snaps & exts & HO & Hn & Hl & Hsn).
  { destruct Hc as [He _]. simpl. lia. }
  assert (HO' : for_range 0 (length (extrinsic_formulations parameters))
                  (solve_extrinsic_trap_at env) s5 =
                (extrinsic_solves snaps, Return (set_extrinsic_traps s5 exts))).
  { rewrite HO. unfold extrinsic_solves. by rewrite Hn. }
  assert (Hl' : length exts = length (extrinsic_formulations parameters)).
  { rewrite Hl. simpl. by destruct Hc. }
  pose proof (time_step_compose final_time s _ _ _ _ _ _ _ _ _ _ _
                Hc HT HR HH HO' Hl') as Hrun.
  cbv zeta in Hrun.
  rewrite app_assoc_7 in Hrun.
  eexists _, _, _, snaps, _. split; [exact Hrun|].
  split; [reflexivity|].
  split; [exact Hn|].
  intros j sn Hj. destruct (Hsn j sn Hj) as (l & -> & Hframe & Hdone).
  split.
  - intros i sn_i Hi Hsni. exact (Hdone i sn_i Hi Hsni).
  - intros k Hk. simpl. apply Hframe. lia.
Qed.

(** ** Defaults and guards of the set-up and of the output *)

Lemma setup_calls (tp : time_parameters) (dt : Q) :
  ∃ tr r,
    setup env parameters tp dt = (tr, r) ∧
    tr !! 2%nat =
      Some (call_create_function_space (length (traps parameters))
              (trap_element_of parameters)) ∧
    count is_define_xdmf_files tr = once_if_exported parameters "xdmf" ∧
    count is_header_derived_quantities tr =
      once_if_exported parameters "derived_quantities" ∧
    count is_write_to_csv tr = 0%nat ∧
    count is_compute_error tr = 0%nat.
Proof.
  unfold setup, mesh_and_function_spaces, define_temperature,
    define_functions_and_initialise, trap_element_of, once_if_exported.
  destruct (sp_traps_element_type (solving_parameters parameters)),
    (py_eq_str (temperature_type parameters) "expression"),
    (py_eq_str (temperature_type parameters) "solve_transient"),
    (py_eq_str (temperature_type parameters) "solve_stationary"),
    (is_transient tp),
    (has_key (exports parameters) "xdmf"),
    (has_key (exports parameters) "derived_quantities").
  all: eexists _, _; split; [reflexivity|done].
Qed.

Lemma store_data_in_output_calls (mesh0 : mesh) s :
  ∃ tr r,
    store_data_in_output env parameters mesh0 s = (tr, r) ∧
    count is_define_xdmf_files tr = 0%nat ∧
    count is_header_derived_quantities tr = 0%nat ∧
    count is_write_to_csv tr = once_if_exported parameters "derived_quantities" ∧
    count is_compute_error tr = once_if_exported parameters "error".
Proof.
  unfold store_data_in_output, once_if_exported.
  destruct (has_key (exports parameters) "error"),
    (has_key (exports parameters) "derived_quantities"),
    (S_ (st_properties s)).
  all: eexists _, _; split; [reflexivity|done].
Qed.

(** The calls of the loop or of the single solve are none of the set-up
    or of the output. *)
Lemma solve_calls (tp : time_parameters) (fuel : nat) s trL r :
  consistent parameters s →
  solve env parameters tp fuel s = (trL, r) →
  count is_define_xdmf_files trL = 0%nat ∧
  count is_header_derived_quantities trL = 0%nat ∧
  count is_write_to_csv trL = 0%nat ∧
  count is_compute_error trL = 0%nat.
Proof.
  intros Hc HL. destruct tp as [final_time initial_stepsize|].
  - unfold solve in HL. rewrite emit_bind_eq in HL. injection HL as <- _.
    destruct (time_stepping_total fuel final_time s Hc)
      as (tr & r' & Hloop & _ & Hk).
    rewrite Hloop. simpl. rewrite !count_cons. simpl.
    repeat split; by count_segments.
  - destruct (solve_steady_state_spec s) as (s1 & Hsteady).
    unfold solve in HL. rewrite Hsteady in HL. by injection HL as <- _.
Qed.

(** X12.  The function space of the concentrations is created for all
    the traps of [parameters["traps"]], the extrinsic ones included, and
    with the element ["CG"] unless [traps_element_type] says
    otherwise. *)
Theorem function_space_for_all_traps (log_level : Z) (fuel : nat)
    (tp : time_parameters) (dt : Q) :
  export_passes env parameters →
  resolve_mode parameters = ([], Return (tp, dt)) →
  call_create_function_space (length (traps parameters))
    (default "CG" (sp_traps_element_type (solving_parameters parameters)))
    ∈ (run env parameters log_level fuel).1.
Proof.
  intros Hpass Hmode.
  destruct (run_shape log_level fuel _ _ Hpass Hmode)
    as (tr0 & trS & s0 & trL & r & _ & Hsetup & _ & _ & Hrun).
  destruct (setup_calls tp dt) as (trS' & r' & Hsetup' & Hfs & _).
  rewrite Hsetup in Hsetup'. injection Hsetup' as <- _.
  apply list_elem_of_lookup_2 in Hfs.
  destruct Hrun as [[_ ->]|(s1 & trO & out & _ & _ & _ & ->)]; simpl;
    rewrite !elem_of_app, !elem_of_cons, ?elem_of_app; auto 10.
Qed.

(** X13.  In a run that returns, the XDMF files are defined once when
    [exports] has ["xdmf"] and never otherwise; the header of the derived
    quantities is computed and the table written to CSV once each when
    [exports] has ["derived_quantities"] and never otherwise; the error
    is computed once when [exports] has ["error"] and never otherwise. *)
Theorem export_calls_follow_exports (log_level : Z) (fuel : nat)
    (tp : time_parameters) (dt : Q) tr out :
  export_passes env parameters →
  resolve_mode parameters = ([], Return (tp, dt)) →
  run env parameters log_level fuel = (tr, Return out) →
  count is_define_xdmf_files tr = once_if_exported parameters "xdmf" ∧
  count is_header_derived_quantities tr =
    once_if_exported parameters "derived_quantities" ∧
  count is_write_to_csv tr = once_if_exported parameters "derived_quantities" ∧
  count is_compute_error tr = once_if_exported parameters "error".
Proof.
  intros Hpass Hmode Hret.
  destruct (run_shape log_level fuel _ _ Hpass Hmode)
    as (tr0 & trS & s0 & trL & r & Htr0 & Hsetup & _ & HL & Hrun).
  destruct Hrun as [[_ Hrun]|(s1 & trO & out' & _ & Hout & _ & Hrun)].
  { rewrite Hrun in Hret. discriminate. }
  rewrite Hrun in Hret. injection Hret as <- <-.
  destruct (setup_inv _ _ _ _ _ Hsetup) as (_ & _ & Hc & _).
  destruct (setup_calls tp dt) as (trS' & r' & Hsetup' & _ & S1 & S2 & S3 & S4).
  rewrite Hsetup in Hsetup'. injection Hsetup' as <- _.
  destruct (store_data_in_output_calls (create_mesh env) s1)
    as (trO' & r'' & Hout' & O1 & O2 & O3 & O4).
  rewrite Hout in Hout'. injection Hout' as <- _.
  destruct (solve_calls tp fuel s0 trL r Hc HL) as (L1 & L2 & L3 & L4).
  repeat (progress (rewrite ?count_app, ?count_cons; simpl)).
  rewrite S1, S2, S3, S4, O1, O2, O3, O4, L1, L2, L3, L4.
  rewrite !(count_none _ tr0)
    by (eapply Forall_kind; [|exact Htr0]; disjoint_kinds).
  repeat split; lia.
Qed.

End Proofs.

(** ** The reported retention *)

(** C9.  The reported retention is, at every point, the sum of the
    reported solute concentration and of all the trap densities, for any
    number of traps and any values; under chemical potential the solute
    variable [solute / S] of [u] is reported as [solute].  With two traps
    it is [solute + d_1 + d_2], and with a solute concentration of 1 and
    trap densities of 2 and 3 it is 1 + 2 + 3 = 6. *)
Theorem retention_of_two_traps (sim : simulation) (p : point) (solute : Q)
    (densities : list Q) :
  Forall2 (λ trap d, trap p == d) (sim_u_traps sim) densities →
  sim_u_solute sim p ==
    (if sim_chemical_pot sim then solute / sim_S sim p else solute) →
  (sim_chemical_pot sim = true → ¬ sim_S sim p == 0) →
  reported_solute sim p == solute ∧
  retention sim p == solute + foldr Qplus 0 densities ∧
  (∀ d_1 d_2, densities = [d_1; d_2] →
     retention sim p == solute + d_1 + d_2) ∧
  (solute == 1 → densities = [2; 3] →
   retention sim p == 1 + 2 + 3 ∧ retention sim p == 6).
Proof.
  intros Htraps Hu HS.
  assert (Hsolute : reported_solute sim p == solute).
  { unfold reported_solute. destruct (sim_chemical_pot sim).
    - rewrite Hu. field. by apply HS.
    - exact Hu. }
  assert (Hsum : foldr (λ f acc, f p + acc) 0 (sim_u_traps sim) ==
                 foldr Qplus 0 densities).
  { induction Htraps as [|f d fs ds Hfd _ IH]; simpl; [reflexivity|].
    by rewrite Hfd, IH. }
  assert (Hretention : retention sim p == solute + foldr Qplus 0 densities).
  { unfold retention. by rewrite Hsolute, Hsum. }
  split; [exact Hsolute|]. split; [exact Hretention|]. split.
  - intros d_1 d_2 ->. rewrite Hretention. simpl. ring.
  - intros H1 ->. rewrite Hretention, H1. simpl. split; ring.
Qed.

(** * The statements on sample inputs *)

Lemma sample_export_passes (solving_type : option pyval) (temperature : string) :
  export_passes sample_collaborators (sample_parameters solving_type temperature).
Proof. intros _. by left. Qed.

Lemma sample_store_consistent : consistent transient_parameters sample_store.
Proof. split; reflexivity. Qed.

(** [sample_store] is the store in which the loop of a run of
    [transient_parameters] starts. *)
Lemma sample_store_is_setup :
  (setup sample_collaborators transient_parameters
     (transient_run 1 (3 # 10)) (3 # 10)).2 = Return (tt, sample_store).
Proof. vm_compute. reflexivity. Qed.

Lemma unknown_solving_type_raises_witness :
  ∃ tr,
    run sample_collaborators (sample_parameters (Some (PyInt 3)) "expression")
      40 0 =
      (tr, Raise (ValueError (py_str (PyInt 3) +:+ " unkown"))) ∧
    Forall (λ e, e = call_export_parameters ∨ e = call_set_log_level 40) tr ∧
    Forall (λ e, is_mesh_construction e = false ∧ is_solve e = false) tr.
Proof.
  apply (unknown_solving_type_raises sample_collaborators
           (sample_parameters (Some (PyInt 3)) "expression") 40 0 (PyInt 3)).
  - reflexivity.
  - discriminate.
  - discriminate.
  - intros _. by left.
Defined.

Lemma fixed_step_iteration_count_witness :
  ∃ tr s',
    time_stepping sample_collaborators transient_parameters 10 1 sample_store =
      (tr, Return s') ∧
    Z.of_nat (count is_solve_it tr) = Qceiling (1 / (3 # 10)) ∧
    Z.of_nat (count is_u_n_commit tr) = Qceiling (1 / (3 # 10)) ∧
    1 <= st_t s' ∧ st_t s' < 1 + (3 # 10).
Proof.
  apply (fixed_step_iteration_count sample_collaborators transient_parameters
           1 (3 # 10) sample_store 10).
  - reflexivity.
  - reflexivity.
  - split; intros; reflexivity.
  - split; reflexivity.
  - reflexivity.
  - reflexivity.
  - vm_compute. lia.
Defined.

Lemma stationary_run_solves_once_witness :
  ∃ tr out,
    run sample_collaborators
      (sample_parameters (Some (PyStr "solve_stationary")) "solve_stationary")
      40 0 = (tr, Return out) ∧
    count is_transport_solve tr = 1%nat ∧
    count is_solve_once tr = 1%nat ∧
    count is_post_processing tr = 1%nat ∧
    count is_commit tr = 0%nat.
Proof.
  apply (stationary_run_solves_once sample_collaborators
           (sample_parameters (Some (PyStr "solve_stationary"))
              "solve_stationary") 40 0).
  - reflexivity.
  - intros _. by left.
Defined.

Lemma missing_solving_type_is_transient_witness :
  let parameters := sample_parameters None "expression" in
  check_if_transient (field := Z) (row := nat) parameters =
    ([], Return true) ∧
  (sp_final_time (solving_parameters parameters) = None →
   ∃ tr,
     run sample_collaborators parameters 40 3 =
       (tr, Raise (KeyError "final_time")) ∧
     Forall (λ e, is_mesh_construction e = false ∧ is_solve e = false) tr) ∧
  (∀ final_time,
     sp_final_time (solving_parameters parameters) = Some final_time →
     sp_initial_stepsize (solving_parameters parameters) = None →
     ∃ tr,
       run sample_collaborators parameters 40 3 =
         (tr, Raise (KeyError "initial_stepsize")) ∧
       Forall (λ e, is_mesh_construction e = false ∧ is_solve e = false) tr) ∧
  (∀ final_time initial_stepsize,
     sp_final_time (solving_parameters parameters) = Some final_time →
     sp_initial_stepsize (solving_parameters parameters) =
       Some initial_stepsize →
     ∃ tr r,
       run sample_collaborators parameters 40 3 = (tr, r) ∧
       call_formulation true ∈ tr ∧
       print "Time stepping..." ∈ tr ∧
       count is_solve_once tr = 0%nat).
Proof.
  apply (missing_solving_type_is_transient sample_collaborators
           (sample_parameters None "expression") 40 3).
  - reflexivity.
  - apply sample_export_passes.
Defined.

Lemma export_type_error_ignored_witness :
  let env := with_export_parameters sample_collaborators (Some TypeError) in
  (export_parameters env = Some TypeError →
   run env transient_parameters 40 10 =
     run (with_export_parameters env None) transient_parameters 40 10) ∧
  (∀ e, export_parameters env = Some e → e ≠ TypeError →
     run env transient_parameters 40 10 = ([call_export_parameters], Raise e)).
Proof.
  apply (export_type_error_ignored
           (with_export_parameters sample_collaborators (Some TypeError))
           transient_parameters 40 10).
  reflexivity.
Defined.

(** Against C8 as stated: an export that fails with an exception other
    than [TypeError] ends the run with that exception. *)
Lemma export_failure_reaches_caller :
  let env :=
    with_export_parameters sample_collaborators (Some (OtherError "OSError")) in
  has_key (exports transient_parameters) "parameters" = true ∧
  export_parameters env = Some (OtherError "OSError") ∧
  run env transient_parameters 40 10 =
    ([call_export_parameters], Raise (OtherError "OSError")).
Proof. repeat split. Qed.





Lemma extrinsic_traps_solved_in_order_witness :
  ∃ tr s' before sn_transport odes sn_pp commits,
    time_step sample_collaborators transient_parameters 1 sample_store =
      (tr, Return s') ∧
    tr = before ++ [call_solve_it sn_transport] ++ odes ++
         [call_run_post_processing true sn_pp] ++ commits ∧
    Forall (λ e, is_solve_it e = false ∧ is_extrinsic_solve e = false ∧
                 is_post_processing e = false ∧ is_commit e = false)
      before ∧
    length odes = length (filter is_extrinsic (traps transient_parameters)) ∧
    (∀ j, (j < length (filter is_extrinsic (traps transient_parameters)))%nat →
       ∃ sn, odes !! j = Some (call_solve_extrinsic_trap j [] sn) ∧
             st_u sn = (solve_it sample_collaborators sn_transport).1) ∧
    commits ≠ [] ∧
    Forall (λ e, is_commit e = true) commits.
Proof.
  apply (extrinsic_traps_solved_in_order sample_collaborators
           transient_parameters 1 sample_store).
  split; reflexivity.
Defined.

Lemma retention_of_two_traps_witness :
  reported_solute sample_simulation (1 # 2, 1 # 2) == 1 ∧
  retention sample_simulation (1 # 2, 1 # 2) == 1 + 2 + 3 ∧
  retention sample_simulation (1 # 2, 1 # 2) == 6.
Proof.
  destruct (retention_of_two_traps sample_simulation (1 # 2, 1 # 2) 1 [2; 3])
    as (Hsolute & _ & _ & Hsix).
  - repeat constructor.
  - reflexivity.
  - intros _ [=].
  - destruct Hsix as [Hsum Hsix]; [reflexivity|reflexivity|].
    split; [exact Hsolute|]. split; [exact Hsum|exact Hsix].
Defined.

(** * The further properties on sample inputs *)

Lemma export_not_requested_witness :
  let parameters :=
    configured ∅ (Some (PyStr "solve_stationary")) None None "expression" in
  run sample_collaborators parameters 40 0 =
    run (with_export_parameters sample_collaborators
           (Some (OtherError "OSError"))) parameters 40 0 ∧
  ∃ rest,
    (run sample_collaborators parameters 40 0).1 =
      call_set_log_level 40 :: rest.
Proof.
  apply (export_not_requested sample_collaborators
           (configured ∅ (Some (PyStr "solve_stationary")) None None
              "expression") 40 0 (Some (OtherError "OSError"))).
  reflexivity.
Defined.

Lemma no_step_when_final_time_not_positive_witness :
  let parameters :=
    configured {[ "derived_quantities" := PyStr "dq.csv" ]} None
      (Some 0) (Some (1 # 2)) "solve_transient" in
  ∃ tr out,
    run sample_collaborators parameters 40 0 = (tr, Return out) ∧
    count is_transport_solve tr = 0%nat ∧
    count is_extrinsic_solve tr = 0%nat ∧
    count is_update_expressions tr = 0%nat ∧
    count is_post_processing tr = 0%nat ∧
    output_derived_quantities out =
      (if has_key (exports parameters) "derived_quantities"
       then Some [header_derived_quantities sample_collaborators] else None).
Proof.
  apply (no_step_when_final_time_not_positive sample_collaborators
           (configured {[ "derived_quantities" := PyStr "dq.csv" ]} None
              (Some 0) (Some (1 # 2)) "solve_transient") 40 0 0 (1 # 2)).
  - intros _. by left.
  - reflexivity.
  - discriminate.
Defined.

Lemma non_positive_step_never_ends_witness :
  ∃ tr,
    time_stepping sample_collaborators transient_parameters 5 1
      (set_dt sample_store 0) = (tr, OutOfFuel) ∧
    count is_solve_it tr = 5%nat.
Proof.
  apply (non_positive_step_never_ends sample_collaborators
           transient_parameters 5 1 (set_dt sample_store 0)).
  - split; reflexivity.
  - split; intros; reflexivity.
  - discriminate.
  - reflexivity.
Defined.

Lemma loop_calls_are_balanced_witness :
  let tr :=
    (time_stepping sample_collaborators transient_parameters 10 1
       sample_store).1 in
  count is_solve_it tr = 4%nat ∧
  count is_post_processing tr = count is_solve_it tr ∧
  count is_u_n_commit tr = count is_solve_it tr ∧
  count is_update_expressions tr = count is_solve_it tr ∧
  count is_extrinsic_solve tr =
    (length (filter is_extrinsic (traps transient_parameters)) *
     count is_solve_it tr)%nat.
Proof.
  intros tr.
  assert (Hret : ∃ s',
            time_stepping sample_collaborators transient_parameters 10 1
              sample_store = (tr, Return s')).
  { eexists. vm_compute. reflexivity. }
  destruct Hret as [s' Hret].
  split; [vm_compute; reflexivity|].
  apply (loop_calls_are_balanced sample_collaborators transient_parameters
           10 1 sample_store tr s').
  - split; reflexivity.
  - exact Hret.
Defined.

Lemma first_post_processing_does_not_append_witness :
  let calls :=
    List.filter is_post_processing
      (run sample_collaborators transient_parameters 40 10).1 in
  ∃ sn0 sn1,
    calls !! 0%nat = Some (call_run_post_processing true sn0) ∧
    st_append sn0 = false ∧
    calls !! 1%nat = Some (call_run_post_processing true sn1) ∧
    st_append sn1 = true.
Proof.
  intros calls.
  assert (H0 : ∃ e, calls !! 0%nat = Some e).
  { vm_compute. eexists. reflexivity. }
  assert (H1 : ∃ e, calls !! 1%nat = Some e).
  { vm_compute. eexists. reflexivity. }
  destruct H0 as [e0 H0]. destruct H1 as [e1 H1].
  assert (Hpass : export_passes sample_collaborators transient_parameters).
  { intros _. by left. }
  destruct (first_post_processing_does_not_append sample_collaborators
              transient_parameters 40 10 1 (3 # 10) Hpass eq_refl 0%nat e0 H0)
    as (sn0 & He0 & Ha0).
  destruct (first_post_processing_does_not_append sample_collaborators
              transient_parameters 40 10 1 (3 # 10) Hpass eq_refl 1%nat e1 H1)
    as (sn1 & He1 & Ha1).
  exists sn0, sn1. rewrite <- He0, <- He1.
  split; [exact H0|]. split; [exact Ha0|]. split; [exact H1|exact Ha1].
Defined.

Lemma expression_temperature_step_witness :
  let parameters :=
    sample_parameters (Some (PyStr "solve_transient")) "expression" in
  ∃ tr s' sn,
    time_step sample_collaborators parameters 1 sample_store =
      (tr, Return s') ∧
    call_solve_it sn ∈ tr ∧
    assign_interpolate_T_expr slot_T (st_t sample_store + st_dt sample_store)
      ∈ tr ∧
    count is_heat_solve tr = 0%nat ∧
    st_T sn =
      interpolate_T_expr sample_collaborators
        (st_t sample_store + st_dt sample_store) ∧
    st_T_n sn = st_T sample_store.
Proof.
  apply (expression_temperature_step sample_collaborators
           (sample_parameters (Some (PyStr "solve_transient")) "expression")
           1 sample_store).
  - split; reflexivity.
  - reflexivity.
Defined.

Lemma heat_solves_by_temperature_type_witness :
  let tr := (run sample_collaborators transient_parameters 40 10).1 in
  count is_solve_it tr = 4%nat ∧
  count is_heat_solve tr =
    heat_solves (temperature_type transient_parameters)
      (count is_solve_it tr) ∧
  count is_heat_formulation tr =
    (if py_eq_str (temperature_type transient_parameters) "expression"
     then 0 else 1)%nat.
Proof.
  intros tr.
  assert (Hret : ∃ out,
            run sample_collaborators transient_parameters 40 10 =
              (tr, Return out)).
  { eexists. vm_compute. reflexivity. }
  destruct Hret as [out Hret].
  split; [vm_compute; reflexivity|].
  apply (heat_solves_by_temperature_type sample_collaborators
           transient_parameters 40 10 (transient_run 1 (3 # 10)) (3 # 10)
           tr out).
  - intros _. by left.
  - reflexivity.
  - exact Hret.
Defined.

Lemma stationary_run_stays_at_time_zero_witness :
  ∃ tr out sn,
    run sample_collaborators reporting_parameters 40 0 = (tr, Return out) ∧
    call_solve_once sn ∈ tr ∧
    call_run_post_processing false
      (set_u sn (solve_once sample_collaborators sn)) ∈ tr ∧
    st_t sn = 0 ∧ st_dt sn = 0 ∧ st_append sn = false ∧
    st_extrinsic_traps sn =
      ((λ _, Function_W sample_collaborators) <$>
         filter is_extrinsic (traps reporting_parameters)) ∧
    count is_time_machinery tr = 0%nat.
Proof.
  apply (stationary_run_stays_at_time_zero sample_collaborators
           reporting_parameters 40 0).
  - reflexivity.
  - intros [=].
Defined.

Lemma output_entries_witness :
  output_parameters reporting_output = reporting_parameters ∧
  output_mesh reporting_output = create_mesh sample_collaborators ∧
  (is_Some (output_error reporting_output) ↔
   has_key (exports reporting_parameters) "error" = true) ∧
  (is_Some (output_derived_quantities reporting_output) ↔
   has_key (exports reporting_parameters) "derived_quantities" = true).
Proof.
  apply (output_entries sample_collaborators reporting_parameters 40 0
           (run sample_collaborators reporting_parameters 40 0).1
           reporting_output).
  vm_compute. reflexivity.
Defined.

Lemma derived_quantities_begin_with_header_witness :
  ∃ rows,
    output_derived_quantities reporting_output =
      Some (header_derived_quantities sample_collaborators :: rows).
Proof.
  apply (derived_quantities_begin_with_header sample_collaborators
           reporting_parameters 40 0
           (run sample_collaborators reporting_parameters 40 0).1
           reporting_output).
  - vm_compute. reflexivity.
  - reflexivity.
  - intros transient s. by exists [1%nat].
Defined.

Lemma transient_run_requires_time_parameters_witness :
  let parameters :=
    configured ∅ (Some (PyStr "solve_transient")) None None "expression" in
  (sp_final_time (solving_parameters parameters) = None →
   ∃ tr,
     run sample_collaborators parameters 40 0 =
       (tr, Raise (KeyError "final_time")) ∧
     Forall (λ e, is_mesh_construction e = false ∧ is_solve e = false) tr) ∧
  (∀ final_time,
     sp_final_time (solving_parameters parameters) = Some final_time →
     sp_initial_stepsize (solving_parameters parameters) = None →
     ∃ tr,
       run sample_collaborators parameters 40 0 =
         (tr, Raise (KeyError "initial_stepsize")) ∧
       Forall (λ e, is_mesh_construction e = false ∧ is_solve e = false) tr).
Proof.
  apply (transient_run_requires_time_parameters sample_collaborators
           (configured ∅ (Some (PyStr "solve_transient")) None None
              "expression") 40 0).
  - reflexivity.
  - intros [=].
Defined.

Lemma function_space_for_all_traps_witness :
  call_create_function_space (length (traps transient_parameters))
    (default "CG"
       (sp_traps_element_type (solving_parameters transient_parameters)))
    ∈ (run sample_collaborators transient_parameters 40 10).1.
Proof.
  apply (function_space_for_all_traps sample_collaborators
           transient_parameters 40 10 (transient_run 1 (3 # 10)) (3 # 10)).
  - intros _. by left.
  - reflexivity.
Defined.

Lemma export_calls_follow_exports_witness :
  let tr := (run sample_collaborators reporting_parameters 40 0).1 in
  count is_define_xdmf_files tr = once_if_exported reporting_parameters "xdmf" ∧
  count is_header_derived_quantities tr =
    once_if_exported reporting_parameters "derived_quantities" ∧
  count is_write_to_csv tr =
    once_if_exported reporting_parameters "derived_quantities" ∧
  count is_compute_error tr = once_if_exported reporting_parameters "error".
Proof.
  apply (export_calls_follow_exports sample_collaborators reporting_parameters
           40 0 stationary_run 0
           (run sample_collaborators reporting_parameters 40 0).1
           reporting_output).
  - intros [=].
  - reflexivity.
  - vm_compute. reflexivity.
Defined.

Lemma extrinsic_traps_solved_one_after_another_witness :
  ∃ tr s' before snaps after,
    time_step sample_collaborators transient_parameters 1 sample_store =
      (tr, Return s') ∧
    tr = before ++ extrinsic_solves snaps ++ after ∧
    length snaps = length (filter is_extrinsic (traps transient_parameters)) ∧
    ∀ j sn, snaps !! j = Some sn →
      (∀ i sn_i, (i < j)%nat → snaps !! i = Some sn_i →
         st_extrinsic_traps sn !! i =
           Some (solve_extrinsic_trap sample_collaborators i sn_i)) ∧
      (∀ k, (j ≤ k)%nat →
         st_extrinsic_traps sn !! k = st_extrinsic_traps sample_store !! k).
Proof.
  apply (extrinsic_traps_solved_one_after_another sample_collaborators
           transient_parameters 1 sample_store).
  split; reflexivity.
Defined.
